(** * The vector store facade of the local document agent

    A shallow embedding of [src/vector_store.py] (class [VectorStore]) and of
    the two endpoints of [src/vector_service.py] that reach it without a
    document type.  The facade is glue over two external collaborators, a
    sentence embedder and a ChromaDB client; both are modelled here as
    interfaces: the embedder and the distance metric are parameters, a
    collection is the list of its records in insertion order.

    Python's [try/except] is an error monad over the state of the store.  A
    call into the store may raise; which call does is decided by a script
    of outcomes carried in the state, so every interleaving of failing and
    succeeding store calls is an input of the model. *)

From Stdlib Require Import Floats.
From stdpp Require Import base tactics option list sorting strings pretty gmap.

Local Open Scope Z_scope.

(** ** Values and records *)

(** The values a metadata dictionary holds here: [None], a [str], an [int]. *)
Inductive value :=
  | VNone
  | VStr (s : string)
  | VInt (n : Z).

#[global] Instance value_eq_dec : EqDecision value.
Proof. solve_decision. Defined.

Definition value_to_sum (v : value) : unit + (string + Z) :=
  match v with
  | VNone => inl tt
  | VStr s => inr (inl s)
  | VInt n => inr (inr n)
  end.

Definition value_of_sum (x : unit + (string + Z)) : value :=
  match x with
  | inl _ => VNone
  | inr (inl s) => VStr s
  | inr (inr n) => VInt n
  end.

#[global] Instance value_countable : Countable value.
Proof.
  apply (inj_countable' value_to_sum value_of_sum).
  by intros [].
Defined.

(** An embedding is a list of IEEE doubles, as [embedding.tolist()] gives. *)
Definition embedding := list float.

(** One record of a collection: id, vector, text, metadata dictionary. *)
Record chunk_record := mkRecord {
  rec_id : string;
  rec_embedding : embedding;
  rec_document : string;
  rec_metadata : gmap string value
}.

(** [dict.get(key)] and [dict.get(key, default)]. *)
Definition dict_get (md : gmap string value) (key : string) : value :=
  default VNone (md !! key).

Definition dict_get_default (md : gmap string value) (key : string)
    (dflt : value) : value :=
  default dflt (md !! key).

(** ** State, exceptions and the monad *)

(** The two collection attributes [__init__] sets, and the outcomes of the
    store calls still to come ([true]: that call raises; an exhausted script
    raises nothing). *)
Record World := mkWorld {
  contract_collection : list chunk_record;
  policy_collection : list chunk_record;
  faults : list bool
}.

Inductive exn :=
  | AttributeError (name : string)
  | IndexError
  | ValueError
  | EmbeddingError
  | StoreError
  | HTTPException (status_code : Z).

Inductive outcome (A : Type) :=
  | Return (a : A)
  | Raise (e : exn).
Arguments Return {A} a.
Arguments Raise {A} e.

Definition M (A : Type) : Type := World → outcome A * World.

Definition ret {A} (a : A) : M A := λ w, (Return a, w).

Definition raise {A} (e : exn) : M A := λ w, (Raise e, w).

Definition bind {A B} (m : M A) (k : A → M B) : M B :=
  λ w, match m w with
       | (Return a, w') => k a w'
       | (Raise e, w') => (Raise e, w')
       end.

(** [try: m  except Exception as e: h e]. *)
Definition try_except {A} (m : M A) (h : exn → M A) : M A :=
  λ w, match m w with
       | (Return a, w') => (Return a, w')
       | (Raise e, w') => h e w'
       end.

Notation "'do' x <- m ; k" := (bind m (λ x, k))
  (at level 10, x name, m at level 100, k at level 200).
Notation "m ;; k" := (bind m (λ _, k))
  (at level 100, k at level 200, right associativity).

(** [l[i]], raising [IndexError] out of range. *)
Definition index {A} (l : list A) (i : nat) : M A :=
  match l !! i with
  | Some x => ret x
  | None => raise IndexError
  end.

(** A [for] loop that collects one value per element. *)
Fixpoint for_each {A B} (f : A → M B) (l : list A) : M (list B) :=
  match l with
  | [] => ret []
  | x :: l' => do y <- f x; do ys <- for_each f l'; ret (y :: ys)
  end.

(** Python truthiness of an optional string: [None] and [""] are falsy. *)
Definition truthy (o : option string) : bool :=
  match o with
  | Some s => negb (String.eqb s "")
  | None => false
  end.

(** [o or dflt] for an optional string. *)
Definition py_or (o : option string) (dflt : string) : string :=
  match o with
  | Some s => if String.eqb s "" then dflt else s
  | None => dflt
  end.

(** A Python [str] is held as the bytes of its UTF-8 encoding, so that
    equality, emptiness and concatenation are those of the bytes; its
    [len] counts code points, the bytes that do not continue a character
    ([10xxxxxx]). *)
Definition is_continuation (a : Ascii.ascii) : bool :=
  match a with
  | Ascii.Ascii _ _ _ _ _ _ b6 b7 => b7 && negb b6
  end.

(** [len(s)] for a [str]. *)
Fixpoint py_len (s : string) : nat :=
  match s with
  | EmptyString => 0%nat
  | String a s' => if is_continuation a then py_len s' else S (py_len s')
  end.

(** ** The ChromaDB collection interface *)

(** ChromaDB is a third-party library; the facade sees it through the four
    calls below, which follow section 4.2 of the specification: [add]
    upserts, [delete] removes by filter, [get] scans, [query] ranks by
    distance and cuts at [n_results]. *)
Module Chroma.

(** The two collections the client holds: [uploaded_contracts] and
    [contract_policy]. *)
Inductive handle := Contract | Policy.

Definition coll (h : handle) (w : World) : list chunk_record :=
  match h with
  | Contract => contract_collection w
  | Policy => policy_collection w
  end.

Definition set_coll (h : handle) (c : list chunk_record) (w : World) : World :=
  match h with
  | Contract => mkWorld c (policy_collection w) (faults w)
  | Policy => mkWorld (contract_collection w) c (faults w)
  end.

(** Entering a store call: the next outcome of the script is consumed. *)
Definition enter : M unit :=
  λ w, match faults w with
       | true :: fs =>
           (Raise StoreError,
            mkWorld (contract_collection w) (policy_collection w) fs)
       | false :: fs =>
           (Return tt,
            mkWorld (contract_collection w) (policy_collection w) fs)
       | [] => (Return tt, w)
       end.

(** A [where] filter [{key: v}]: the metadata holds [v] under [key]. *)
Definition matches (where_ : option (string * value)) (r : chunk_record) : bool :=
  match where_ with
  | None => true
  | Some (key, v) => bool_decide (rec_metadata r !! key = Some v)
  end.

(** What [get] returns: parallel lists. *)
Record GetResult := mkGet {
  g_ids : list string;
  g_metadatas : list (gmap string value);
  g_documents : list string
}.

(** What [query] returns: one row per query embedding, in parallel lists. *)
Record QueryResult := mkQuery {
  q_ids : list (list string);
  q_documents : list (list string);
  q_metadatas : list (list (gmap string value));
  q_distances : list (list float)
}.

(** Modelled from the spec: section 4.2 says [add] upserts.  A record
    whose id is present replaces the stored one in place, any other is
    appended. *)
Fixpoint upsert (r : chunk_record) (c : list chunk_record) : list chunk_record :=
  match c with
  | [] => [r]
  | r' :: c' =>
      if String.eqb (rec_id r') (rec_id r) then r :: c' else r' :: upsert r c'
  end.

Definition upsert_all (rs c : list chunk_record) : list chunk_record :=
  fold_left (λ acc r, upsert r acc) rs c.

(** The parallel lists handed to [add], as records; [None] when their
    lengths differ. *)
Fixpoint zip_records (ids : list string) (embeddings : list embedding)
    (metadatas : list (gmap string value)) (documents : list string)
    : option (list chunk_record) :=
  match ids, embeddings, metadatas, documents with
  | [], [], [], [] => Some []
  | i :: ids', e :: embeddings', m :: metadatas', d :: documents' =>
      rs ← zip_records ids' embeddings' metadatas' documents';
      Some (mkRecord i e d m :: rs)
  | _, _, _, _ => None
  end.

(** [collection.add(embeddings=, metadatas=, ids=, documents=)]. *)
Definition add (h : handle) (embeddings : list embedding)
    (metadatas : list (gmap string value)) (ids : list string)
    (documents : list string) : M unit :=
  enter ;;
  match zip_records ids embeddings metadatas documents with
  | None => raise ValueError
  | Some rs => λ w, (Return tt, set_coll h (upsert_all rs (coll h w)) w)
  end.

(** [collection.delete(where=)]: every matching record goes. *)
Definition delete (h : handle) (where_ : option (string * value)) : M unit :=
  enter ;;
  λ w, (Return tt,
        set_coll h (filter (λ r, matches where_ r = false) (coll h w)) w).

(** [collection.get(where=)]: the matching records, in stored order. *)
Definition get (h : handle) (where_ : option (string * value)) : M GetResult :=
  enter ;;
  λ w, let rs := filter (λ r, matches where_ r = true) (coll h w) in
       (Return (mkGet (rec_id <$> rs) (rec_metadata <$> rs) (rec_document <$> rs)), w).

Section Query.
(** The distance the engine computes between two vectors. *)
Context (metric : embedding → embedding → float).

Definition closer (a b : float * chunk_record) : Prop :=
  PrimFloat.leb a.1 b.1 = true.

#[local] Instance closer_dec a b : Decision (closer a b).
Proof. unfold closer. apply _. Defined.

(** The [n_results] nearest matching records with their distances. *)
Definition nearest (q : embedding) (n_results : Z)
    (where_ : option (string * value)) (c : list chunk_record)
    : list (float * chunk_record) :=
  take (Z.to_nat n_results)
    (merge_sort closer
       ((λ r, (metric q (rec_embedding r), r)) <$>
          filter (λ r, matches where_ r = true) c)).

(** [collection.query(query_embeddings=, n_results=, where=,
    include=["metadatas", "documents", "distances"])]. *)
Definition query (h : handle) (query_embeddings : list embedding)
    (n_results : Z) (where_ : option (string * value)) : M QueryResult :=
  enter ;;
  λ w, let rows := (λ q, nearest q n_results where_ (coll h w)) <$> query_embeddings in
       (Return (mkQuery
                  (fmap (M:=list) (λ p, rec_id p.2) <$> rows)
                  (fmap (M:=list) (λ p, rec_document p.2) <$> rows)
                  (fmap (M:=list) (λ p, rec_metadata p.2) <$> rows)
                  (fmap (M:=list) fst <$> rows)), w).
End Query.

End Chroma.

(** ** The facade: class [VectorStore] *)

(** A result of [search_chunks]. *)
Record SearchResult := mkResult {
  chunk_id : string;
  text : string;
  metadata : gmap string value;
  similarity_score : float;
  distance : float;
  collection_type : string
}.

(** The dictionary [search_policy_aware] returns. *)
Record PolicyAware := mkPolicyAware {
  contract_chunks : list SearchResult;
  policy_chunks : list SearchResult;
  pa_query : string
}.

(** The dictionary [get_document_info] returns; [None] in the last field
    when the key [document_id] is not set. *)
Record DocInfo := mkDocInfo {
  chunk_count : Z;
  document_name : value;
  info_document_id : option string
}.

(** A summary of [list_documents]; the last three keys exist for the
    policy collection only. *)
Record Summary := mkSummary {
  s_document_id : value;
  s_document_name : value;
  s_document_type : string;
  s_chunk_count : Z;
  s_clause_type : option value;
  s_risk_level : option value;
  s_policy_id : option value
}.

(** [self.<name>]: [__init__] sets [contract_collection] and
    [policy_collection] (besides the directory, the model and the client);
    any other collection attribute is missing. *)
Definition getattr (name : string) : M Chroma.handle :=
  if String.eqb name "contract_collection" then ret Chroma.Contract
  else if String.eqb name "policy_collection" then ret Chroma.Policy
  else raise (AttributeError name).

(** [self.contract_collection if t == "contract" else self.policy_collection]. *)
Definition select_collection (t : string) : M Chroma.handle :=
  if String.eqb t "contract" then getattr "contract_collection"
  else getattr "policy_collection".

(** [f"{document_id}_chunk_{i}"]. *)
Definition make_chunk_id (document_id : string) (i : nat) : string :=
  document_id +:+ "_chunk_" +:+ pretty i.

(** The metadata dictionary of chunk [i], lines 149 to 164. *)
Definition chunk_metadata (document_id document_name document_type : string)
    (clause_type risk_level policy_id : option string) (i : nat)
    (chunk : string) : gmap string value :=
  let metadata : gmap string value :=
    list_to_map
      [("document_id", VStr document_id);
       ("document_name", VStr document_name);
       ("document_type", VStr document_type);
       ("chunk_index", VInt (Z.of_nat i));
       ("chunk_length", VInt (Z.of_nat (py_len chunk)));
       ("section_label", VStr ("chunk_" +:+ pretty (i + 1)%nat))] in
  if String.eqb document_type "policy" then
    (list_to_map
       [("clause_type", VStr (py_or clause_type "general"));
        ("risk_level", VStr (py_or risk_level "medium"));
        ("policy_id", VStr (py_or policy_id document_id))]
       : gmap string value) ∪ metadata
  else metadata.

(** [_group_documents_by_id]: the dictionary [documents] keeps its keys in
    insertion order, so it is a list of pairs. *)
Definition seed_summary (doc_id : value) (md : gmap string value)
    (doc_type : string) : Summary :=
  if String.eqb doc_type "policy" then
    mkSummary doc_id (dict_get md "document_name") doc_type 0
      (Some (dict_get_default md "clause_type" (VStr "general")))
      (Some (dict_get_default md "risk_level" (VStr "medium")))
      (Some (dict_get_default md "policy_id" doc_id))
  else
    mkSummary doc_id (dict_get md "document_name") doc_type 0 None None None.

Definition bump (s : Summary) : Summary :=
  mkSummary (s_document_id s) (s_document_name s) (s_document_type s)
    (s_chunk_count s + 1) (s_clause_type s) (s_risk_level s) (s_policy_id s).

(** [documents[doc_id]["chunk_count"] += 1]. *)
Fixpoint bump_at (doc_id : value) (documents : list (value * Summary))
    : list (value * Summary) :=
  match documents with
  | [] => []
  | (k, s) :: rest =>
      if decide (k = doc_id) then (k, bump s) :: rest
      else (k, s) :: bump_at doc_id rest
  end.

Definition group_step (doc_type : string) (documents : list (value * Summary))
    (md : gmap string value) : list (value * Summary) :=
  let doc_id := dict_get md "document_id" in
  let documents :=
    if decide (doc_id ∈ fst <$> documents) then documents
    else documents ++ [(doc_id, seed_summary doc_id md doc_type)] in
  bump_at doc_id documents.

Definition _group_documents_by_id (results : Chroma.GetResult)
    (doc_type : string) : list Summary :=
  snd <$> fold_left (group_step doc_type) (Chroma.g_metadatas results) [].

(** [_delete_document_chunks(document_id, document_type)]. *)
Definition _delete_document_chunks (document_id document_type : string) : M bool :=
  try_except
    (do collection <- select_collection document_type;
     Chroma.delete collection (Some ("document_id", VStr document_id)) ;;
     ret true)
    (λ _, ret false).

(** [get_document_info(document_id)]; the set of names is a [gset], whose
    [elements] stands for the iteration order of a Python set. *)
Definition get_document_info (document_id : string) : M DocInfo :=
  try_except
    (do collection <- getattr "collection";
     do results <- Chroma.get collection (Some ("document_id", VStr document_id));
     match Chroma.g_ids results with
     | [] => ret (mkDocInfo 0 VNone None)
     | _ :: _ =>
         let document_names : gset value :=
           list_to_set ((λ md, dict_get md "document_name") <$> Chroma.g_metadatas results) in
         let document_name :=
           match elements document_names with
           | name :: _ => name
           | [] => VNone
           end in
         ret (mkDocInfo (Z.of_nat (length (Chroma.g_ids results))) document_name
                (Some document_id))
     end)
    (λ _, ret (mkDocInfo 0 VNone None)).

(** One half of [list_documents]: scan a collection when the type filter
    lets it through, and extend [documents] with its groups. *)
Definition list_part (document_type : option string) (doc_type : string)
    (documents : list Summary) : M (list Summary) :=
  if match document_type with
     | None => true
     | Some t => String.eqb t doc_type
     end
  then
    do collection <- select_collection doc_type;
    do results <- Chroma.get collection None;
    match Chroma.g_ids results with
    | [] => ret documents
    | _ :: _ => ret (documents ++ _group_documents_by_id results doc_type)
    end
  else ret documents.

(** [list_documents(document_type)]. *)
Definition list_documents (document_type : option string) : M (list Summary) :=
  try_except
    (do documents <- list_part document_type "contract" [];
     do documents <- list_part document_type "policy" documents;
     ret documents)
    (λ _, ret []).

Section Facade.
(** [self.embedding_model.encode], [None] when it raises, and the
    distance of the engine. *)
Context (encode : string → option embedding).
Context (metric : embedding → embedding → float).

(** [generate_embedding(text)]: a failure is logged and raised again. *)
Definition generate_embedding (text : string) : M embedding :=
  try_except
    match encode text with
    | Some v => ret v
    | None => raise EmbeddingError
    end
    (λ e, raise e).

(** The loop of [add_document_chunks], lines 143 to 170, with its three
    accumulators. *)
Fixpoint add_loop (document_id document_name document_type : string)
    (clause_type risk_level policy_id : option string) (i : nat)
    (chunks : list string) (embeddings : list embedding)
    (metadatas : list (gmap string value)) (ids : list string)
    : M (list embedding * list (gmap string value) * list string) :=
  match chunks with
  | [] => ret (embeddings, metadatas, ids)
  | chunk :: rest =>
      do embedding <- generate_embedding chunk;
      let metadata :=
        chunk_metadata document_id document_name document_type
          clause_type risk_level policy_id i chunk in
      add_loop document_id document_name document_type
        clause_type risk_level policy_id (S i) rest
        (embeddings ++ [embedding]) (metadatas ++ [metadata])
        (ids ++ [make_chunk_id document_id i])
  end.

(** [add_document_chunks(document_id, document_name, chunks,
    document_type, clause_type, risk_level, policy_id)]. *)
Definition add_document_chunks (document_id document_name : string)
    (chunks : list string) (document_type : string)
    (clause_type risk_level policy_id : option string) : M bool :=
  try_except
    (_delete_document_chunks document_id document_type ;;
     match chunks with
     | [] => ret true
     | _ :: _ =>
         do collection <- select_collection document_type;
         do batch <- add_loop document_id document_name document_type
                       clause_type risk_level policy_id 0 chunks [] [] [];
         Chroma.add collection batch.1.1 batch.1.2 batch.2 chunks ;;
         ret true
     end)
    (λ _, ret false).

(** The formatting loop of [search_chunks], lines 222 to 233. *)
Definition format_result (results : Chroma.QueryResult)
    (collection_type : string) (i : nat) : M SearchResult :=
  do ids0 <- index (Chroma.q_ids results) 0;
  do cid <- index ids0 i;
  do documents0 <- index (Chroma.q_documents results) 0;
  do doc <- index documents0 i;
  do metadatas0 <- index (Chroma.q_metadatas results) 0;
  do md <- index metadatas0 i;
  do distances0 <- index (Chroma.q_distances results) 0;
  do d <- index distances0 i;
  ret (mkResult cid doc md (1 - d)%float d collection_type).

Definition format_results (results : Chroma.QueryResult)
    (collection_type : string) : M (list SearchResult) :=
  match Chroma.q_ids results with
  | [] => ret []
  | [] :: _ => ret []
  | ids0 :: _ =>
      for_each (format_result results collection_type) (seq 0 (length ids0))
  end.

(** [search_chunks(query, document_id, top_k, collection_type)]. *)
Definition search_chunks (query : string) (document_id : option string)
    (top_k : Z) (collection_type : string) : M (list SearchResult) :=
  try_except
    (do query_embedding <- generate_embedding query;
     let where_clause :=
       match document_id with
       | Some d => if truthy document_id then Some ("document_id", VStr d) else None
       | None => None
       end in
     do collection <- select_collection collection_type;
     do results <- Chroma.query metric collection [query_embedding] top_k where_clause;
     format_results results collection_type)
    (λ _, ret []).

(** [search_policy_aware(query, document_id, contract_top_k, policy_top_k)]. *)
Definition search_policy_aware (query : string) (document_id : option string)
    (contract_top_k policy_top_k : Z) : M PolicyAware :=
  try_except
    (do contract_chunks <- search_chunks query document_id contract_top_k "contract";
     do policy_chunks <- search_chunks query None policy_top_k "policy";
     ret (mkPolicyAware contract_chunks policy_chunks query))
    (λ _, ret (mkPolicyAware [] [] query)).

End Facade.

(** ** The endpoints of [vector_service.py] without a document type *)

Module Service.

Record DeleteResponse := mkDeleteResponse {
  success : bool;
  message : string
}.

Record DocumentInfoResponse := mkDocumentInfoResponse {
  r_document_id : string;
  r_document_name : value;
  r_chunk_count : Z
}.

(** [GET /document_info/{document_id}]. *)
Definition get_document_info (document_id : string) : M DocumentInfoResponse :=
  try_except
    (do doc_info <- get_document_info document_id;
     ret (mkDocumentInfoResponse document_id (document_name doc_info)
            (chunk_count doc_info)))
    (λ _, raise (HTTPException 500)).

(** [DELETE /delete_document/{document_id}]: the type is left to its
    default, ["contract"]. *)
Definition delete_document (document_id : string) : M DeleteResponse :=
  try_except
    (do ok <- _delete_document_chunks document_id "contract";
     if ok then
       ret (mkDeleteResponse true ("Deleted chunks for document: " +:+ document_id))
     else raise (HTTPException 500))
    (λ _, raise (HTTPException 500)).

End Service.

(** ** Vocabulary of the statements *)

(** The collection a type string is routed to. *)
Definition target (t : string) : Chroma.handle :=
  if String.eqb t "contract" then Chroma.Contract else Chroma.Policy.

(** The state once the next outcome of the script is used up. *)
Definition advance (w : World) : World :=
  mkWorld (contract_collection w) (policy_collection w) (tail (faults w)).

(** The next store call raises. *)
Definition raises_next (w : World) : bool :=
  match faults w with
  | true :: _ => true
  | _ => false
  end.

(** The record carries [document_id] in its metadata. *)
Definition in_document (document_id : string) (r : chunk_record) : Prop :=
  rec_metadata r !! "document_id" = Some (VStr document_id).

#[global] Instance in_document_dec document_id r :
  Decision (in_document document_id r).
Proof. unfold in_document. apply _. Defined.

(** The records of one document in a collection. *)
Definition chunks_of (document_id : string) (c : list chunk_record)
    : list chunk_record :=
  filter (in_document document_id) c.

(** A collection without the records of one document. *)
Definition without (document_id : string) (c : list chunk_record)
    : list chunk_record :=
  filter (λ r, ¬ in_document document_id r) c.

(** The records [add_document_chunks] builds from its arguments: one per
    chunk, numbered from zero. *)
Definition batch_record (encode : string → option embedding)
    (document_id document_name document_type : string)
    (clause_type risk_level policy_id : option string) (i : nat)
    (chunk : string) : chunk_record :=
  mkRecord (make_chunk_id document_id i) (default [] (encode chunk)) chunk
    (chunk_metadata document_id document_name document_type
       clause_type risk_level policy_id i chunk).

Definition batch_records (encode : string → option embedding)
    (document_id document_name document_type : string)
    (clause_type risk_level policy_id : option string)
    (chunks : list string) : list chunk_record :=
  imap (batch_record encode document_id document_name document_type
          clause_type risk_level policy_id) chunks.

(** The document id a metadata dictionary reports. *)
Definition doc_id_of (md : gmap string value) : value :=
  dict_get md "document_id".

(** The distinct elements of a list, in the order of their first
    occurrence. *)
Fixpoint first_seen (l : list value) : list value :=
  match l with
  | [] => []
  | x :: l' => x :: filter (λ y, y ≠ x) (first_seen l')
  end.

(** The summary of document [k] over the scanned dictionaries [mds]: seeded
    from the first dictionary that reports [k], counting all that do. *)
Definition summary_of (doc_type : string) (mds : list (gmap string value))
    (k : value) : Summary :=
  let mine := filter (λ md, doc_id_of md = k) mds in
  let s := seed_summary k (default ∅ (head mine)) doc_type in
  mkSummary (s_document_id s) (s_document_name s) (s_document_type s)
    (Z.of_nat (length mine)) (s_clause_type s) (s_risk_level s) (s_policy_id s).

(** [l] summarises collection [c], scanned as type [doc_type]: one entry
    per document id of [c]; each counts the records of [c] under its id and
    takes its name, and for ["policy"] its three policy keys, from the
    first record of [c] under that id. *)
Definition grouped (doc_type : string) (c : list chunk_record)
    (l : list Summary) : Prop :=
  NoDup (s_document_id <$> l) ∧
  (∀ k, k ∈ s_document_id <$> l ↔ ∃ r, r ∈ c ∧ doc_id_of (rec_metadata r) = k) ∧
  (∀ s, s ∈ l →
     s_document_type s = doc_type ∧
     s_chunk_count s =
       Z.of_nat (length (filter (λ r, doc_id_of (rec_metadata r) = s_document_id s) c)) ∧
     ∃ pre r post,
       c = pre ++ r :: post ∧
       doc_id_of (rec_metadata r) = s_document_id s ∧
       (∀ r', r' ∈ pre → doc_id_of (rec_metadata r') ≠ s_document_id s) ∧
       s_document_name s = dict_get (rec_metadata r) "document_name" ∧
       (doc_type = "policy" →
          s_clause_type s
          = Some (dict_get_default (rec_metadata r) "clause_type" (VStr "general")) ∧
          s_risk_level s
          = Some (dict_get_default (rec_metadata r) "risk_level" (VStr "medium")) ∧
          s_policy_id s
          = Some (dict_get_default (rec_metadata r) "policy_id" (s_document_id s))) ∧
       (doc_type ≠ "policy" →
          s_clause_type s = None ∧ s_risk_level s = None ∧ s_policy_id s = None)).

(** The [where] clause [search_chunks] builds, lines 206 to 208. *)
Definition where_of (document_id : option string) : option (string * value) :=
  match document_id with
  | Some d => if String.eqb d "" then None else Some ("document_id", VStr d)
  | None => None
  end.

(** The result [search_chunks] formats from one row of the query. *)
Definition hit (collection_type : string) (p : float * chunk_record)
    : SearchResult :=
  mkResult (rec_id p.2) (rec_document p.2) (rec_metadata p.2)
    (1 - p.1)%float p.1 collection_type.

(** What [get] returns for a list of records. *)
Definition scan (rs : list chunk_record) : Chroma.GetResult :=
  Chroma.mkGet (rec_id <$> rs) (rec_metadata <$> rs) (rec_document <$> rs).

(** ** Sample data *)

Module Sample.

(** An embedder that knows the length of a text only, and refuses the
    text ["boom"]; the distance of two vectors is the gap between their
    first coordinates. *)
Definition encode (s : string) : option embedding :=
  if String.eqb s "boom" then None
  else Some [PrimFloat.of_uint63 (Uint63.of_Z (Z.of_nat (String.length s)))].

Definition metric (a b : embedding) : float :=
  match a, b with
  | x :: _, y :: _ => PrimFloat.abs (x - y)
  | _, _ => 0%float
  end.

Definition empty : World := mkWorld [] [] [].

(** Document ["D"] stored as a contract, in two chunks. *)
Definition stored : World :=
  (add_document_chunks encode "D" "doc.pdf" ["alpha"; "be"] "contract"
     None None None empty).2.

(** On top of that, a policy under the same id ["D"] and a policy ["P"]. *)
Definition shared : World :=
  (add_document_chunks encode "P" "rules.pdf" ["one"; "three"] "policy"
     None (Some "high") None
     (add_document_chunks encode "D" "policy.pdf" ["clause"] "policy"
        (Some "liability") None None stored).2).2.

(** The same collections, with a script for the store calls to come. *)
Definition scripted (w : World) (script : list bool) : World :=
  mkWorld (contract_collection w) (policy_collection w) script.

End Sample.

(** ** The rest of the facade, of the service and of the viewer *)

(** Modelled from the spec: section 4.2, [reset()] drops all data across
    both collections.  It is the call [self.client.reset()] makes. *)
Definition client_reset : M unit :=
  Chroma.enter ;;
  λ w, (Return tt, mkWorld [] [] (faults w)).

(** [clear_all()]. *)
Definition clear_all : M bool :=
  try_except (client_reset ;; ret true) (λ _, ret false).

(** The endpoints of [vector_service.py] that pass their request on to the
    facade; the store is the one [startup_event] has set. *)
Module Api.

Record AddResponse := mkAddResponse {
  added : bool;
  add_message : string;
  add_chunk_count : Z
}.

Record SearchResponse := mkSearchResponse {
  chunks : list SearchResult;
  total_found : Z;
  query : string
}.

Record ClearResponse := mkClearResponse {
  cleared : bool;
  clear_message : string
}.

Section Endpoints.
Context (encode : string → option embedding).
Context (metric : embedding → embedding → float).

(** [POST /add_document_chunks]. *)
Definition add_document_chunks (document_id document_name : string)
    (chunks : list string) (document_type : string)
    (clause_type risk_level policy_id : option string) : M AddResponse :=
  try_except
    (do ok <- add_document_chunks encode document_id document_name chunks
                document_type clause_type risk_level policy_id;
     if ok then
       do doc_info <- get_document_info document_id;
       ret (mkAddResponse true
              ("Added " +:+ pretty (length chunks) +:+ " chunks for document: "
               +:+ document_name)
              (chunk_count doc_info))
     else raise (HTTPException 500))
    (λ _, raise (HTTPException 500)).

(** [POST /search_chunks]: the request has no collection type. *)
Definition search_chunks (query : string) (document_id : option string)
    (top_k : Z) : M SearchResponse :=
  try_except
    (do chunks <- search_chunks encode metric query document_id top_k "contract";
     ret (mkSearchResponse chunks (Z.of_nat (length chunks)) query))
    (λ _, raise (HTTPException 500)).

End Endpoints.

(** [GET /list_documents]: the body is [{"documents": documents}]. *)
Definition list_documents : M (list Summary) :=
  try_except
    (do documents <- list_documents None; ret documents)
    (λ _, raise (HTTPException 500)).

(** [DELETE /clear_all]. *)
Definition clear_all : M ClearResponse :=
  try_except
    (do ok <- clear_all;
     if ok then ret (mkClearResponse true "Cleared all data from vector store")
     else raise (HTTPException 500))
    (λ _, raise (HTTPException 500)).

End Api.

(** [client.get_collection(name)] on the database [_initialize_chromadb]
    sets up: it holds [uploaded_contracts] and [contract_policy], and any
    other name raises. *)
Definition get_collection (name : string) : M Chroma.handle :=
  Chroma.enter ;;
  if String.eqb name "uploaded_contracts" then ret Chroma.Contract
  else if String.eqb name "contract_policy" then ret Chroma.Policy
  else raise ValueError.

(** [view_embeddings()] of [view_embeddings.py].  Lines 20 to 49 read the
    collection and print what they read; they are the parameter [report],
    which may raise. *)
Definition view_embeddings (report : Chroma.handle → M unit) : M bool :=
  try_except
    (do collection <- get_collection "document_chunks";
     report collection ;;
     ret true)
    (λ _, ret false).

(** ** Sequences of calls *)

(** A call of the facade with its arguments. *)
Inductive call :=
  | CallAdd (document_id document_name : string) (chunks : list string)
      (document_type : string) (clause_type risk_level policy_id : option string)
  | CallDelete (document_id document_type : string)
  | CallSearch (query : string) (document_id : option string) (top_k : Z)
      (collection_type : string)
  | CallSearchPolicyAware (query : string) (document_id : option string)
      (contract_top_k policy_top_k : Z)
  | CallInfo (document_id : string)
  | CallList (document_type : option string)
  | CallClear.

(** The state a call leaves. *)
Definition after (encode : string → option embedding)
    (metric : embedding → embedding → float) (c : call) (w : World) : World :=
  match c with
  | CallAdd d n chunks t ct rl pid =>
      (add_document_chunks encode d n chunks t ct rl pid w).2
  | CallDelete d t => (_delete_document_chunks d t w).2
  | CallSearch q d k t => (search_chunks encode metric q d k t w).2
  | CallSearchPolicyAware q d ck pk =>
      (search_policy_aware encode metric q d ck pk w).2
  | CallInfo d => (get_document_info d w).2
  | CallList t => (list_documents t w).2
  | CallClear => (clear_all w).2
  end.

(** The state a sequence of calls leaves. *)
Definition after_all (encode : string → option embedding)
    (metric : embedding → embedding → float) (cs : list call) (w : World)
    : World :=
  fold_left (λ w c, after encode metric c w) cs w.

(** A record whose id is built from the document id of its own metadata
    and an index. *)
Definition keyed (r : chunk_record) : Prop :=
  ∃ d i, in_document d r ∧ rec_id r = make_chunk_id d i.

(** A record whose id, index and length agree with its metadata and
    text, the length being [len] of the text. *)
Definition consistent (r : chunk_record) : Prop :=
  ∃ d i,
    in_document d r ∧
    rec_id r = make_chunk_id d i ∧
    rec_metadata r !! "chunk_index" = Some (VInt (Z.of_nat i)) ∧
    rec_metadata r !! "chunk_length"
    = Some (VInt (Z.of_nat (py_len (rec_document r)))).

(** A collection with unique ids and consistent records. *)
Definition sound (c : list chunk_record) : Prop :=
  NoDup (rec_id <$> c) ∧ Forall consistent c.

Definition store_sound (w : World) : Prop :=
  sound (contract_collection w) ∧ sound (policy_collection w).

(** A decimal digit. *)
Definition is_digit (a : Ascii.ascii) : bool :=
  (48 <=? Ascii.nat_of_ascii a)%nat && (Ascii.nat_of_ascii a <=? 57)%nat.

(** ** Stepping through the monad *)

Ltac unfold_monad :=
  unfold bind, try_except, ret, raise in *.

Lemma enter_spec w :
  Chroma.enter w =
    (if raises_next w then Raise StoreError else Return tt, advance w).
Proof.
  destruct w as [c p [|[] fs]]; reflexivity.
Qed.

Lemma coll_advance h w : Chroma.coll h (advance w) = Chroma.coll h w.
Proof. by destruct h. Qed.

Lemma coll_set_coll h c w : Chroma.coll h (Chroma.set_coll h c w) = c.
Proof. by destruct h. Qed.

Lemma select_collection_spec t w :
  select_collection t w = (Return (target t), w).
Proof.
  unfold select_collection, target. by destruct (String.eqb t "contract").
Qed.

Lemma matches_document document_id r :
  Chroma.matches (Some ("document_id", VStr document_id)) r
  = bool_decide (in_document document_id r).
Proof. reflexivity. Qed.

Lemma filter_not_matches document_id c :
  filter (λ r, Chroma.matches (Some ("document_id", VStr document_id)) r = false) c
  = without document_id c.
Proof.
  unfold without. apply list_filter_iff. intros r.
  rewrite matches_document. by rewrite bool_decide_eq_false.
Qed.

Lemma filter_matches document_id c :
  filter (λ r, Chroma.matches (Some ("document_id", VStr document_id)) r = true) c
  = chunks_of document_id c.
Proof.
  unfold chunks_of. apply list_filter_iff. intros r.
  rewrite matches_document. by rewrite bool_decide_eq_true.
Qed.

Lemma filter_matches_all (c : list chunk_record) :
  filter (λ r, Chroma.matches None r = true) c = c.
Proof.
  induction c as [|r c IH]; [done|].
  rewrite filter_cons_True by done. by rewrite IH.
Qed.

(** What [_delete_document_chunks] does, for every script. *)
Lemma delete_chunks_spec document_id t w :
  _delete_document_chunks document_id t w =
    if raises_next w then (Return false, advance w)
    else (Return true,
          Chroma.set_coll (target t)
            (without document_id (Chroma.coll (target t) w)) (advance w)).
Proof.
  unfold _delete_document_chunks, Chroma.delete. unfold_monad.
  rewrite select_collection_spec, enter_spec.
  destruct (raises_next w); [done|].
  by rewrite filter_not_matches, coll_advance.
Qed.

Lemma chunks_of_without document_id c :
  chunks_of document_id (without document_id c) = [].
Proof.
  unfold chunks_of, without. induction c as [|r c IH]; [done|].
  destruct (decide (in_document document_id r)) as [Hr|Hr].
  - by rewrite (filter_cons_False _ r c) by tauto.
  - rewrite (filter_cons_True _ r c) by done.
    by rewrite filter_cons_False.
Qed.

Lemma delete_chunks_other_collection document_id t h w :
  h ≠ target t →
  Chroma.coll h (_delete_document_chunks document_id t w).2 = Chroma.coll h w.
Proof.
  intros Hne. rewrite delete_chunks_spec.
  destruct (raises_next w); simpl; [apply coll_advance|].
  destruct h, (target t); done.
Qed.

(** With an empty list, [add_document_chunks] is its delete step and
    [True]. *)
Lemma add_empty_spec encode document_id document_name t ct rl pid w :
  add_document_chunks encode document_id document_name [] t ct rl pid w =
    (Return true, (_delete_document_chunks document_id t w).2).
Proof.
  unfold add_document_chunks. unfold_monad.
  rewrite delete_chunks_spec. by destruct (raises_next w).
Qed.

(** ** The batch built by the loop *)

Lemma zip_records_snoc ids embeddings metadatas documents rs i e m d :
  Chroma.zip_records ids embeddings metadatas documents = Some rs →
  Chroma.zip_records (ids ++ [i]) (embeddings ++ [e]) (metadatas ++ [m])
    (documents ++ [d]) = Some (rs ++ [mkRecord i e d m]).
Proof.
  revert embeddings metadatas documents rs.
  induction ids as [|i0 ids IH]; intros [|e0 es] [|m0 ms] [|d0 ds] rs H;
    simpl in H; try discriminate.
  - by injection H as <-.
  - destruct (Chroma.zip_records ids es ms ds) as [rs0|] eqn:E;
      simpl in H; [|discriminate].
    injection H as <-. simpl. by rewrite (IH _ _ _ _ E).
Qed.

Section Batch.
Context (encode : string → option embedding).
Context (document_id document_name document_type : string).
Context (clause_type risk_level policy_id : option string).

Let loop := add_loop encode document_id document_name document_type
              clause_type risk_level policy_id.
Let record := batch_record encode document_id document_name document_type
                clause_type risk_level policy_id.

Lemma generate_embedding_spec chunk w :
  generate_embedding encode chunk w =
    (match encode chunk with
     | Some v => Return v
     | None => Raise EmbeddingError
     end, w).
Proof.
  unfold generate_embedding. unfold_monad. by destruct (encode chunk).
Qed.

Lemma add_loop_spec chunks : ∀ i embeddings metadatas ids documents rs w,
  Forall (λ c, is_Some (encode c)) chunks →
  Chroma.zip_records ids embeddings metadatas documents = Some rs →
  ∃ batch,
    loop i chunks embeddings metadatas ids w = (Return batch, w) ∧
    Chroma.zip_records batch.2 batch.1.1 batch.1.2 (documents ++ chunks)
    = Some (rs ++ imap (λ j, record (i + j)%nat) chunks).
Proof.
  induction chunks as [|chunk rest IH]; intros i es ms ids ds rs w Hall Hzip.
  - exists (es, ms, ids). split; [done|]. simpl. by rewrite !app_nil_r.
  - apply Forall_cons in Hall as [[v Hv] Hall].
    subst loop. simpl. unfold bind at 1.
    rewrite generate_embedding_spec, Hv.
    pose proof (zip_records_snoc _ _ _ _ _ (make_chunk_id document_id i) v
                  (chunk_metadata document_id document_name document_type
                     clause_type risk_level policy_id i chunk) chunk Hzip) as Hz.
    destruct (IH (S i) _ _ _ _ _ w Hall Hz) as (batch & Hrun & Hbatch).
    exists batch. split; [exact Hrun|].
    rewrite <- app_assoc in Hbatch. simpl in Hbatch. rewrite Hbatch.
    f_equal. rewrite <- app_assoc. f_equal. simpl. f_equal.
    + subst record. unfold batch_record. rewrite Hv. simpl.
      by rewrite Nat.add_0_r.
    + apply imap_ext. intros j c _. simpl. f_equal. lia.
Qed.

Lemma add_loop_raises chunks : ∀ i embeddings metadatas ids w,
  Exists (λ c, encode c = None) chunks →
  loop i chunks embeddings metadatas ids w = (Raise EmbeddingError, w).
Proof.
  induction chunks as [|chunk rest IH]; intros i es ms ids w Hex.
  - by apply Exists_nil in Hex.
  - subst loop. simpl. unfold bind at 1. rewrite generate_embedding_spec.
    destruct (encode chunk) as [v|] eqn:Hv; [|done].
    apply Exists_cons in Hex as [Hex|Hex]; [congruence|].
    by apply IH.
Qed.

(** What [add_document_chunks] does with a batch the embedder accepts. *)
Lemma add_chunks_spec chunks w :
  chunks ≠ [] →
  Forall (λ c, is_Some (encode c)) chunks →
  add_document_chunks encode document_id document_name chunks document_type
    clause_type risk_level policy_id w =
  let w1 := (_delete_document_chunks document_id document_type w).2 in
  if raises_next w1 then (Return false, advance w1)
  else (Return true,
        Chroma.set_coll (target document_type)
          (Chroma.upsert_all
             (batch_records encode document_id document_name document_type
                clause_type risk_level policy_id chunks)
             (Chroma.coll (target document_type) w1))
          (advance w1)).
Proof.
  intros Hne Hall. unfold add_document_chunks.
  destruct chunks as [|c0 chunks0] eqn:Hc; [done|]. rewrite <- Hc in *.
  unfold try_except, bind at 1.
  destruct (_delete_document_chunks document_id document_type w) as [r w1] eqn:Hd.
  assert (∃ b, r = Return b) as [b ->].
  { rewrite delete_chunks_spec in Hd. destruct (raises_next w);
      injection Hd as <- _; eauto. }
  simpl. unfold bind at 1. rewrite select_collection_spec.
  unfold bind at 1.
  destruct (add_loop_spec chunks 0 [] [] [] [] [] w1 Hall eq_refl)
    as (batch & Hrun & Hzip).
  subst loop. rewrite Hrun. simpl in Hzip.
  unfold Chroma.add. unfold_monad. rewrite enter_spec.
  destruct (raises_next w1); [done|].
  rewrite Hzip. by rewrite coll_advance.
Qed.

(** A chunk the embedder refuses fails the call after the delete step. *)
Lemma add_chunks_embedding_error chunks w :
  Exists (λ c, encode c = None) chunks →
  add_document_chunks encode document_id document_name chunks document_type
    clause_type risk_level policy_id w =
  (Return false, (_delete_document_chunks document_id document_type w).2).
Proof.
  intros Hex. unfold add_document_chunks.
  destruct chunks as [|c0 chunks0] eqn:Hc; [by apply Exists_nil in Hex|].
  rewrite <- Hc in *.
  unfold try_except, bind at 1.
  destruct (_delete_document_chunks document_id document_type w) as [r w1] eqn:Hd.
  assert (∃ b, r = Return b) as [b ->].
  { rewrite delete_chunks_spec in Hd. destruct (raises_next w);
      injection Hd as <- _; eauto. }
  simpl. unfold bind at 1. rewrite select_collection_spec.
  unfold bind at 1. pose proof (add_loop_raises chunks 0 [] [] [] w1 Hex) as Hr.
  subst loop. by rewrite Hr.
Qed.

End Batch.

(** ** Upserting a batch *)

Lemma elem_of_upsert x r c : x ∈ Chroma.upsert r c → x = r ∨ x ∈ c.
Proof.
  induction c as [|r' c IH]; simpl.
  - intros ->%list_elem_of_singleton. by left.
  - destruct (String.eqb (rec_id r') (rec_id r)).
    + intros [->|H]%elem_of_cons; [by left|]. right. by right.
    + intros [->|H]%elem_of_cons; [right; by left|].
      destruct (IH H) as [->|H']; [by left|]. right. by right.
Qed.

Lemma elem_of_upsert_all x rs : ∀ c,
  x ∈ Chroma.upsert_all rs c → x ∈ rs ∨ x ∈ c.
Proof.
  induction rs as [|r rs IH]; intros c; simpl; [by right|].
  intros [H|H]%IH; [left; by right|].
  apply elem_of_upsert in H as [->|H]; [left; by left | by right].
Qed.

Lemma chunks_of_upsert document_id r c :
  in_document document_id r →
  (∀ x, x ∈ c → in_document document_id x → rec_id x ≠ rec_id r) →
  chunks_of document_id (Chroma.upsert r c) ≡ₚ chunks_of document_id c ++ [r].
Proof.
  intros Hr. unfold chunks_of.
  induction c as [|r' c IH]; intros Hc; simpl.
  - by rewrite filter_cons_True.
  - destruct (String.eqb (rec_id r') (rec_id r)) eqn:E.
    + apply String.eqb_eq in E.
      rewrite (filter_cons_True _ r c) by done.
      rewrite (filter_cons_False _ r' c).
      * by rewrite Permutation_app_comm.
      * intros Hr'. apply (Hc r'); [left | done | done].
    + assert (∀ x, x ∈ c → in_document document_id x → rec_id x ≠ rec_id r)
        as Hc' by (intros x Hx; apply Hc; by right).
      destruct (decide (in_document document_id r')) as [Hr'|Hr'].
      * rewrite !(filter_cons_True _ r') by done. simpl. by rewrite (IH Hc').
      * rewrite !(filter_cons_False _ r') by done. by apply IH.
Qed.

Lemma chunks_of_upsert_all document_id rs : ∀ c,
  Forall (in_document document_id) rs →
  NoDup (rec_id <$> rs) →
  (∀ x, x ∈ c → in_document document_id x → rec_id x ∉ rec_id <$> rs) →
  chunks_of document_id (Chroma.upsert_all rs c)
  ≡ₚ chunks_of document_id c ++ rs.
Proof.
  induction rs as [|r rs IH]; intros c Hall Hnd Hc; simpl.
  - by rewrite app_nil_r.
  - apply Forall_cons in Hall as [Hr Hall].
    rewrite fmap_cons in Hnd. apply NoDup_cons in Hnd as [Hfresh Hnd].
    rewrite IH; [|done|done|].
    + rewrite chunks_of_upsert; [by rewrite <- app_assoc|done|].
      intros x Hx Hdoc Heq. apply (Hc x Hx Hdoc). rewrite Heq. left.
    + intros x Hx Hdoc Hin.
      apply elem_of_upsert in Hx as [->|Hx]; [done|].
      apply (Hc x Hx Hdoc). by right.
Qed.

(** ** The ids and the metadata of a batch *)

Lemma string_app_inj_l (s t1 t2 : string) : s +:+ t1 = s +:+ t2 → t1 = t2.
Proof.
  induction s as [|a s IH]; simpl; [done|].
  intros H. injection H as H. by apply IH.
Qed.

Lemma make_chunk_id_inj document_id i j :
  make_chunk_id document_id i = make_chunk_id document_id j → i = j.
Proof.
  unfold make_chunk_id. intros H.
  apply string_app_inj_l, string_app_inj_l in H.
  by apply (inj pretty) in H.
Qed.

Lemma chunk_metadata_document_id d n t ct rl pid i chunk :
  chunk_metadata d n t ct rl pid i chunk !! "document_id" = Some (VStr d).
Proof.
  unfold chunk_metadata. by destruct (String.eqb t "policy").
Qed.

Lemma elem_of_upsert_keep x r c :
  x ∈ c → rec_id x ≠ rec_id r → x ∈ Chroma.upsert r c.
Proof.
  intros Hx Hne. induction c as [|r' c IH]; simpl; [by apply elem_of_nil in Hx|].
  destruct (String.eqb (rec_id r') (rec_id r)) eqn:E.
  - apply String.eqb_eq in E.
    apply elem_of_cons in Hx as [->|Hx]; [done | by right].
  - apply elem_of_cons in Hx as [->|Hx]; [by left | right; by apply IH].
Qed.

Lemma elem_of_upsert_new r c : r ∈ Chroma.upsert r c.
Proof.
  induction c as [|r' c IH]; simpl; [by left|].
  destruct (String.eqb (rec_id r') (rec_id r)); [by left | by right].
Qed.

Lemma elem_of_upsert_all_keep x rs : ∀ c,
  x ∈ c → rec_id x ∉ rec_id <$> rs → x ∈ Chroma.upsert_all rs c.
Proof.
  induction rs as [|r rs IH]; intros c Hx Hid; simpl; [done|].
  rewrite fmap_cons in Hid. apply not_elem_of_cons in Hid as [Hne Hid].
  apply IH; [|done]. by apply elem_of_upsert_keep.
Qed.

Lemma elem_of_upsert_all_new x rs : ∀ c,
  NoDup (rec_id <$> rs) → x ∈ rs → x ∈ Chroma.upsert_all rs c.
Proof.
  induction rs as [|r rs IH]; intros c Hnd Hx; simpl;
    [by apply elem_of_nil in Hx|].
  rewrite fmap_cons in Hnd. apply NoDup_cons in Hnd as [Hfresh Hnd].
  apply elem_of_cons in Hx as [->|Hx]; [|by apply IH].
  apply elem_of_upsert_all_keep; [apply elem_of_upsert_new | done].
Qed.

Section BatchFacts.
Context (encode : string → option embedding).
Context (document_id document_name document_type : string).
Context (clause_type risk_level policy_id : option string).

Let record := batch_record encode document_id document_name document_type
                clause_type risk_level policy_id.
Let batch := batch_records encode document_id document_name document_type
               clause_type risk_level policy_id.

Lemma elem_of_batch chunks r :
  r ∈ batch chunks ↔ ∃ i chunk, chunks !! i = Some chunk ∧ r = record i chunk.
Proof.
  subst batch record. unfold batch_records. rewrite elem_of_lookup_imap.
  split; intros (i & chunk & H1 & H2); eauto.
Qed.

Lemma batch_in_document chunks : Forall (in_document document_id) (batch chunks).
Proof.
  apply Forall_forall. intros r (i & chunk & _ & ->)%elem_of_batch.
  apply chunk_metadata_document_id.
Qed.

Lemma elem_of_batch_ids chunks x :
  x ∈ rec_id <$> batch chunks ↔
  ∃ i, (i < length chunks)%nat ∧ x = make_chunk_id document_id i.
Proof.
  rewrite list_elem_of_fmap. split.
  - intros (r & -> & (i & chunk & Hi & ->)%elem_of_batch).
    exists i. split; [by eapply lookup_lt_Some | done].
  - intros (i & Hi & ->).
    destruct (lookup_lt_is_Some_2 chunks i Hi) as [chunk Hc].
    exists (record i chunk). split; [done|].
    apply elem_of_batch. eauto.
Qed.

Lemma batch_ids_NoDup chunks : NoDup (rec_id <$> batch chunks).
Proof.
  apply NoDup_alt. intros i j x.
  subst batch. unfold batch_records.
  rewrite !list_lookup_fmap, !list_lookup_imap.
  destruct (chunks !! i) as [ci|]; [|done].
  destruct (chunks !! j) as [cj|]; [|done].
  simpl. intros [= <-] [= H]. symmetry. by apply make_chunk_id_inj in H.
Qed.

End BatchFacts.

Lemma NoDup_fmap_elem_inj {A B} (f : A → B) (l : list A) x y :
  NoDup (f <$> l) → x ∈ l → y ∈ l → f x = f y → x = y.
Proof.
  intros Hnd [i Hi]%list_elem_of_lookup [j Hj]%list_elem_of_lookup Hf.
  assert (i = j) as ->.
  { apply (proj1 (NoDup_alt (f <$> l)) Hnd i j (f x));
      rewrite list_lookup_fmap; [by rewrite Hi | by rewrite Hj, Hf]. }
  congruence.
Qed.

Lemma elem_of_without document_id c r :
  r ∈ without document_id c ↔ ¬ in_document document_id r ∧ r ∈ c.
Proof. unfold without. by rewrite list_elem_of_filter. Qed.

Lemma elem_of_chunks_of document_id c r :
  r ∈ chunks_of document_id c ↔ in_document document_id r ∧ r ∈ c.
Proof. unfold chunks_of. by rewrite list_elem_of_filter. Qed.

(** ** Adding chunks *)

Section Adding.
Context (encode : string → option embedding).
Context (document_id document_name : string) (chunks : list string).
Context (document_type : string).
Context (clause_type risk_level policy_id : option string).

Let add := add_document_chunks encode document_id document_name chunks
             document_type clause_type risk_level policy_id.
Let batch := batch_records encode document_id document_name document_type
               clause_type risk_level policy_id chunks.
Let h := target document_type.

(** The state a call that returned [True] leaves. *)
Lemma add_success w :
  (add w).1 = Return true →
  (add w).2 =
    let w1 := (_delete_document_chunks document_id document_type w).2 in
    match chunks with
    | [] => w1
    | _ :: _ =>
        Chroma.set_coll h (Chroma.upsert_all batch (Chroma.coll h w1)) (advance w1)
    end.
Proof.
  subst add batch h. destruct chunks as [|c0 cs] eqn:Hc.
  - by rewrite add_empty_spec.
  - rewrite <- Hc. assert (chunks ≠ []) as Hne by (by rewrite Hc).
    destruct (decide (Forall (λ c, is_Some (encode c)) chunks)) as [Hall|Hex].
    + rewrite add_chunks_spec by done. simpl.
      by destruct (raises_next _).
    + apply not_Forall_Exists in Hex; [|apply _].
      rewrite add_chunks_embedding_error; [done|].
      eapply Exists_impl; [exact Hex|]. simpl. intros c Hn.
      by apply eq_None_not_Some.
Qed.

(** Whatever happens, the call touches the target collection only. *)
Lemma add_other_collection h' w :
  h' ≠ h → Chroma.coll h' (add w).2 = Chroma.coll h' w.
Proof.
  intros Hne. subst add h.
  pose proof (delete_chunks_other_collection document_id document_type h' w Hne) as Hd.
  destruct chunks as [|c0 cs] eqn:Hc.
  - by rewrite add_empty_spec.
  - rewrite <- Hc. assert (chunks ≠ []) as Hnil by (by rewrite Hc).
    destruct (decide (Forall (λ c, is_Some (encode c)) chunks)) as [Hall|Hex].
    + rewrite add_chunks_spec by done. simpl.
      destruct (raises_next _); simpl.
      * by rewrite coll_advance.
      * rewrite <- Hd, <- (coll_advance h' (_delete_document_chunks _ _ w).2).
        by destruct h', (target document_type).
    + apply not_Forall_Exists in Hex; [|apply _].
      rewrite add_chunks_embedding_error; [done|].
      eapply Exists_impl; [exact Hex|]. simpl. intros c Hn.
      by apply eq_None_not_Some.
Qed.

(** After a call that returned [True], every record of the batch is
    stored in the target collection. *)
Lemma add_success_stores w r :
  (add w).1 = Return true → r ∈ batch → r ∈ Chroma.coll h (add w).2.
Proof.
  intros Hok Hr. rewrite (add_success w Hok). simpl.
  destruct chunks as [|c0 cs] eqn:Hc.
  - subst batch. by apply elem_of_nil in Hr.
  - rewrite coll_set_coll.
    apply elem_of_upsert_all_new; [apply batch_ids_NoDup | done].
Qed.

(** The target collection after a call that returned [True] and whose
    delete step did not raise. *)
Lemma add_success_target w :
  raises_next w = false →
  (add w).1 = Return true →
  Chroma.coll h (add w).2 =
    Chroma.upsert_all batch (without document_id (Chroma.coll h w)).
Proof.
  intros Hw Hok. rewrite (add_success w Hok). simpl.
  rewrite delete_chunks_spec, Hw. simpl. fold h.
  destruct chunks as [|c0 cs] eqn:Hc.
  - by rewrite coll_set_coll.
  - by rewrite !coll_set_coll.
Qed.

End Adding.

Lemma chunk_metadata_base d n t ct rl pid i chunk :
  let md := chunk_metadata d n t ct rl pid i chunk in
  md !! "document_name" = Some (VStr n) ∧
  md !! "document_type" = Some (VStr t) ∧
  md !! "chunk_index" = Some (VInt (Z.of_nat i)) ∧
  md !! "chunk_length" = Some (VInt (Z.of_nat (py_len chunk))) ∧
  md !! "section_label" = Some (VStr ("chunk_" +:+ pretty (i + 1)%nat)).
Proof.
  unfold chunk_metadata. by destruct (String.eqb t "policy").
Qed.

Lemma chunk_metadata_policy d n ct rl pid i chunk :
  let md := chunk_metadata d n "policy" ct rl pid i chunk in
  md !! "clause_type" = Some (VStr (py_or ct "general")) ∧
  md !! "risk_level" = Some (VStr (py_or rl "medium")) ∧
  md !! "policy_id" = Some (VStr (py_or pid d)).
Proof. done. Qed.

Lemma chunk_metadata_plain d n t ct rl pid i chunk :
  t ≠ "policy" →
  let md := chunk_metadata d n t ct rl pid i chunk in
  md !! "clause_type" = None ∧
  md !! "risk_level" = None ∧
  md !! "policy_id" = None.
Proof.
  intros Ht. unfold chunk_metadata.
  destruct (String.eqb t "policy") eqn:E; [|done].
  by apply String.eqb_eq in E.
Qed.

Lemma py_or_present s dflt : s ≠ "" → py_or (Some s) dflt = s.
Proof.
  intros Hs. unfold py_or. destruct (String.eqb s "") eqn:E; [|done].
  by apply String.eqb_eq in E.
Qed.

(** ** Re-adding a document *)

(** C2, as amended.  Take a call of [add_document_chunks] that returned
    [True] and whose delete step did not raise, on a target collection whose
    ids are unique.  The target collection is then the old one without the
    records of [document_id], with the new batch upserted; its records of
    [document_id] are exactly the new batch; and the id of a prior record
    of the document can still be retrieved exactly when the new batch uses
    that id again, that is when it is [document_id_chunk_i] for an [i] below
    the length of the new list. *)
Theorem add_document_chunks_replaces (encode : string → option embedding)
    (document_id document_name : string) (chunks : list string)
    (document_type : string) (clause_type risk_level policy_id : option string)
    (w : World) :
  let run := add_document_chunks encode document_id document_name chunks
               document_type clause_type risk_level policy_id w in
  let batch := batch_records encode document_id document_name document_type
                 clause_type risk_level policy_id chunks in
  let old := Chroma.coll (target document_type) w in
  let new := Chroma.coll (target document_type) run.2 in
  raises_next w = false →
  run.1 = Return true →
  NoDup (rec_id <$> old) →
  new = Chroma.upsert_all batch (without document_id old) ∧
  chunks_of document_id new ≡ₚ batch ∧
  (∀ r, r ∈ chunks_of document_id old →
     rec_id r ∈ rec_id <$> new ↔
     ∃ i, (i < length chunks)%nat ∧ rec_id r = make_chunk_id document_id i).
Proof.
  intros run batch old new Hw Hok Hnd.
  assert (new = Chroma.upsert_all batch (without document_id old)) as Hnew
    by (by apply add_success_target).
  split; [done|]. rewrite Hnew. split.
  - rewrite chunks_of_upsert_all.
    + by rewrite chunks_of_without.
    + apply batch_in_document.
    + apply batch_ids_NoDup.
    + by intros x [Hx _]%elem_of_without Hdoc.
  - intros r [Hdoc Hr]%elem_of_chunks_of.
    rewrite <- (elem_of_batch_ids encode document_id document_name document_type
                  clause_type risk_level policy_id chunks (rec_id r)).
    fold batch. split.
    + intros (r' & Hid & Hr')%list_elem_of_fmap.
      apply elem_of_upsert_all in Hr' as [Hr'|[Hdoc' Hr']%elem_of_without].
      * rewrite Hid. by apply list_elem_of_fmap_2.
      * destruct Hdoc'.
        by rewrite <- (NoDup_fmap_elem_inj rec_id old r r' Hnd Hr Hr' Hid).
    + intros (r' & Hid & Hr')%list_elem_of_fmap.
      rewrite Hid. apply list_elem_of_fmap_2.
      apply elem_of_upsert_all_new; [apply batch_ids_NoDup | done].
Qed.

(** C3, as amended.  With an empty list and a delete step that does not
    raise, [add_document_chunks] returns [True]; the collection its
    document type is routed to loses the records of [document_id], keeps
    the others and gains nothing; the other collection is as before, the
    records it holds under the same id included. *)
Theorem add_empty_list_clears (encode : string → option embedding)
    (document_id document_name document_type : string)
    (clause_type risk_level policy_id : option string) (w : World) :
  let run := add_document_chunks encode document_id document_name []
               document_type clause_type risk_level policy_id w in
  raises_next w = false →
  run.1 = Return true ∧
  chunks_of document_id (Chroma.coll (target document_type) run.2) = [] ∧
  Chroma.coll (target document_type) run.2
  = without document_id (Chroma.coll (target document_type) w) ∧
  (∀ h, h ≠ target document_type → Chroma.coll h run.2 = Chroma.coll h w).
Proof.
  intros run Hw. subst run. rewrite add_empty_spec. simpl.
  split; [done|]. split; [|split].
  - rewrite delete_chunks_spec, Hw. simpl. rewrite coll_set_coll.
    by rewrite chunks_of_without.
  - rewrite delete_chunks_spec, Hw. simpl. by rewrite coll_set_coll.
  - intros h Hh. by apply delete_chunks_other_collection.
Qed.

(** C7.  After a call that returned [True], the [i]-th chunk of the list
    is stored in the target collection under the id
    [document_id_chunk_i], with its index, the length of its text (in code
    points, as [len] counts) and the label [chunk_(i+1)] in the metadata; for the type ["policy"] the
    metadata also carries the three policy keys, each holding its default
    when the argument is absent and the argument when it is a non-empty
    string. *)
Theorem stored_chunk_fields (encode : string → option embedding)
    (document_id document_name : string) (chunks : list string)
    (document_type : string) (clause_type risk_level policy_id : option string)
    (w : World) (i : nat) (chunk : string) :
  let run := add_document_chunks encode document_id document_name chunks
               document_type clause_type risk_level policy_id w in
  run.1 = Return true →
  chunks !! i = Some chunk →
  ∃ r, r ∈ Chroma.coll (target document_type) run.2 ∧
    rec_id r = document_id +:+ "_chunk_" +:+ pretty i ∧
    rec_document r = chunk ∧
    rec_metadata r !! "chunk_index" = Some (VInt (Z.of_nat i)) ∧
    rec_metadata r !! "chunk_length" = Some (VInt (Z.of_nat (py_len chunk))) ∧
    rec_metadata r !! "section_label" = Some (VStr ("chunk_" +:+ pretty (i + 1)%nat)) ∧
    (document_type = "policy" →
       (clause_type = None → rec_metadata r !! "clause_type" = Some (VStr "general")) ∧
       (risk_level = None → rec_metadata r !! "risk_level" = Some (VStr "medium")) ∧
       (policy_id = None → rec_metadata r !! "policy_id" = Some (VStr document_id)) ∧
       (∀ s, clause_type = Some s → s ≠ "" →
          rec_metadata r !! "clause_type" = Some (VStr s)) ∧
       (∀ s, risk_level = Some s → s ≠ "" →
          rec_metadata r !! "risk_level" = Some (VStr s)) ∧
       (∀ s, policy_id = Some s → s ≠ "" →
          rec_metadata r !! "policy_id" = Some (VStr s))).
Proof.
  intros run Hok Hi.
  exists (batch_record encode document_id document_name document_type
            clause_type risk_level policy_id i chunk).
  split.
  { apply add_success_stores; [done|]. apply elem_of_batch. eauto. }
  simpl.
  destruct (chunk_metadata_base document_id document_name document_type
              clause_type risk_level policy_id i chunk) as (_ & _ & H1 & H2 & H3).
  repeat (split; [done|]).
  intros ->.
  destruct (chunk_metadata_policy document_id document_name
              clause_type risk_level policy_id i chunk) as (P1 & P2 & P3).
  rewrite P1, P2, P3.
  repeat split; try (by intros ->); intros s -> Hs; by rewrite py_or_present.
Qed.

(** ** Reading a collection *)

Lemma get_spec h where_ w :
  Chroma.get h where_ w =
    (if raises_next w then Raise StoreError
     else Return (scan (filter (λ r, Chroma.matches where_ r = true) (Chroma.coll h w))),
     advance w).
Proof.
  unfold Chroma.get. unfold_monad. rewrite enter_spec.
  destruct (raises_next w); [done|]. by rewrite coll_advance.
Qed.

Lemma getattr_collection_missing w :
  getattr "collection" w = (Raise (AttributeError "collection"), w).
Proof. reflexivity. Qed.

(** [get_document_info] never reaches the store: the attribute it reads is
    not one the instance has, and the handler answers for it. *)
Lemma get_document_info_always_empty document_id w :
  get_document_info document_id w = (Return (mkDocInfo 0 VNone None), w).
Proof. reflexivity. Qed.

(** X1.  For every id and every state, [get_document_info] answers with no
    chunk and no name, and leaves the state, script included, as it was:
    the store is never called. *)
Theorem get_document_info_never_reads (document_id : string) (w : World) :
  get_document_info document_id w = (Return (mkDocInfo 0 VNone None), w) ∧
  (Service.get_document_info document_id w).1
  = Return (Service.mkDocumentInfoResponse document_id VNone 0).
Proof. split; reflexivity. Qed.

(** C1, at a failing input.  Document ["D"] is stored in the contract
    collection in two chunks named ["doc.pdf"]; [get_document_info] and its
    endpoint report no chunk and no name for it. *)
Theorem get_document_info_misses_stored_chunks :
  length (chunks_of "D" (contract_collection Sample.stored)) = 2%nat ∧
  (λ r, dict_get (rec_metadata r) "document_name")
    <$> chunks_of "D" (contract_collection Sample.stored)
  = [VStr "doc.pdf"; VStr "doc.pdf"] ∧
  (get_document_info "D" Sample.stored).1 = Return (mkDocInfo 0 VNone None) ∧
  (Service.get_document_info "D" Sample.stored).1
  = Return (Service.mkDocumentInfoResponse "D" VNone 0).
Proof. repeat split; reflexivity. Qed.

(** ** Deleting a document through the service *)

(** C9.  [delete_document] never changes the policy collection.  When the
    store does not raise it answers with success and the contract
    collection loses exactly the records of [document_id]; when the store
    raises it answers with status 500 and the contract collection is as
    before. *)
Theorem delete_document_contract_only (document_id : string) (w : World) :
  let run := Service.delete_document document_id w in
  policy_collection run.2 = policy_collection w ∧
  (raises_next w = false →
     run.1 = Return (Service.mkDeleteResponse true
                       ("Deleted chunks for document: " +:+ document_id)) ∧
     contract_collection run.2 = without document_id (contract_collection w) ∧
     chunks_of document_id (contract_collection run.2) = []) ∧
  (raises_next w = true →
     run.1 = Raise (HTTPException 500) ∧
     contract_collection run.2 = contract_collection w).
Proof.
  intros run. subst run. unfold Service.delete_document. unfold_monad.
  rewrite delete_chunks_spec.
  destruct (raises_next w); simpl; repeat split; try done.
  apply chunks_of_without.
Qed.

(** ** Grouping by document id *)

Lemma first_seen_snoc l k :
  first_seen (l ++ [k]) = if decide (k ∈ l) then first_seen l else first_seen l ++ [k].
Proof.
  induction l as [|x l IH]; simpl; [done|].
  rewrite IH. destruct (decide (k ∈ l)) as [Hk|Hk].
  - rewrite decide_True; [done | by right].
  - rewrite filter_app. destruct (decide (k = x)) as [->|Hne].
    + rewrite decide_True by (by left).
      rewrite (filter_cons_False _ x []) by (intros H; by apply H).
      by rewrite app_nil_r.
    + rewrite decide_False by (intros [?|?]%elem_of_cons; done).
      by rewrite (filter_cons_True _ k []) by done.
Qed.

Lemma elem_of_first_seen l k : k ∈ first_seen l ↔ k ∈ l.
Proof.
  induction l as [|x l IH]; simpl; [done|].
  rewrite !elem_of_cons, list_elem_of_filter, IH.
  destruct (decide (k = x)) as [->|Hne]; [by split; left|].
  split; [intros [?|[_ ?]]; [done | by right] | intros [?|?]; [done | by right]].
Qed.

Lemma first_seen_NoDup l : NoDup (first_seen l).
Proof.
  induction l as [|x l IH]; simpl; [constructor|].
  apply NoDup_cons. split.
  - rewrite list_elem_of_filter. by intros [H _].
  - by apply NoDup_filter.
Qed.

Section Grouping.
Context (doc_type : string).

Let entry (mds : list (gmap string value)) (k : value) : value * Summary :=
  (k, summary_of doc_type mds k).

Lemma summary_of_snoc_other mds md k :
  doc_id_of md ≠ k →
  summary_of doc_type (mds ++ [md]) k = summary_of doc_type mds k.
Proof.
  intros Hne. unfold summary_of. rewrite filter_app.
  rewrite (filter_cons_False _ md []) by done. by rewrite app_nil_r.
Qed.

Lemma summary_of_snoc_same mds md :
  doc_id_of md ∈ doc_id_of <$> mds →
  summary_of doc_type (mds ++ [md]) (doc_id_of md)
  = bump (summary_of doc_type mds (doc_id_of md)).
Proof.
  intros (md0 & Hid & Hin)%list_elem_of_fmap.
  unfold summary_of. rewrite filter_app.
  rewrite (filter_cons_True _ md []) by done.
  assert (md0 ∈ filter (λ m, doc_id_of m = doc_id_of md) mds) as Hmine
    by (by apply list_elem_of_filter).
  destruct (filter (λ m, doc_id_of m = doc_id_of md) mds) as [|m1 mine];
    [by apply elem_of_nil in Hmine|].
  unfold bump, seed_summary. rewrite length_app.
  destruct (String.eqb doc_type "policy"); simpl; f_equal; lia.
Qed.

Lemma summary_of_snoc_new mds md :
  doc_id_of md ∉ doc_id_of <$> mds →
  summary_of doc_type (mds ++ [md]) (doc_id_of md)
  = bump (seed_summary (doc_id_of md) md doc_type).
Proof.
  intros Hnew. unfold summary_of. rewrite filter_app.
  rewrite (filter_cons_True _ md []) by done.
  destruct (filter (λ m, doc_id_of m = doc_id_of md) mds) as [|m1 mine] eqn:E.
  - simpl. unfold bump, seed_summary.
    by destruct (String.eqb doc_type "policy").
  - assert (m1 ∈ filter (λ m, doc_id_of m = doc_id_of md) mds) as Hm
      by (rewrite E; left).
    apply list_elem_of_filter in Hm as [Hid Hm]. destruct Hnew.
    rewrite <- Hid. by apply list_elem_of_fmap_2.
Qed.

Lemma bump_at_app_miss k docs rest :
  k ∉ fst <$> docs → bump_at k (docs ++ rest) = docs ++ bump_at k rest.
Proof.
  induction docs as [|[k' s] docs IH]; simpl; [done|].
  intros [Hne Hk]%not_elem_of_cons.
  rewrite decide_False by done. by rewrite IH.
Qed.

Lemma entry_keys mds (ks : list value) : fst <$> (entry mds <$> ks) = ks.
Proof.
  rewrite <- list_fmap_compose. rewrite <- (list_fmap_id ks) at 2.
  by apply list_fmap_ext.
Qed.

Lemma entries_snoc_other mds md (ks : list value) :
  doc_id_of md ∉ ks → entry (mds ++ [md]) <$> ks = entry mds <$> ks.
Proof.
  intros Hk. apply list_fmap_ext. intros i k Hi. subst entry. simpl.
  rewrite summary_of_snoc_other; [done|].
  intros Heq. apply Hk. rewrite Heq. by eapply list_elem_of_lookup_2.
Qed.

Lemma bump_at_entries mds md (ks : list value) :
  NoDup ks →
  doc_id_of md ∈ ks →
  doc_id_of md ∈ doc_id_of <$> mds →
  bump_at (doc_id_of md) (entry mds <$> ks) = entry (mds ++ [md]) <$> ks.
Proof.
  intros Hnd Hk Hseen. induction ks as [|x ks IH]; [by apply elem_of_nil in Hk|].
  apply NoDup_cons in Hnd as [Hx Hnd]. rewrite !fmap_cons.
  unfold entry at 1. simpl. destruct (decide (x = doc_id_of md)) as [->|Hne].
  - rewrite entries_snoc_other by done.
    unfold entry at 2. by rewrite summary_of_snoc_same.
  - apply elem_of_cons in Hk as [Hk|Hk]; [done|].
    rewrite IH by done. unfold entry at 2.
    by rewrite summary_of_snoc_other by done.
Qed.

(** The dictionary built by the loop of [_group_documents_by_id]. *)
Lemma group_fold mds :
  fold_left (group_step doc_type) mds []
  = entry mds <$> first_seen (doc_id_of <$> mds).
Proof.
  induction mds as [|md mds IH] using rev_ind; [done|].
  rewrite fold_left_app, IH. simpl. unfold group_step.
  fold (doc_id_of md). rewrite entry_keys.
  rewrite fmap_app. change (doc_id_of <$> [md]) with [doc_id_of md].
  rewrite first_seen_snoc.
  destruct (decide (doc_id_of md ∈ first_seen (doc_id_of <$> mds))) as [Hin|Hout].
  - rewrite decide_True by (by apply elem_of_first_seen).
    apply bump_at_entries; [apply first_seen_NoDup | done |].
    by apply elem_of_first_seen.
  - rewrite decide_False by (by rewrite <- elem_of_first_seen).
    rewrite bump_at_app_miss by (by rewrite entry_keys).
    rewrite fmap_app, entries_snoc_other by done. simpl.
    rewrite decide_True by done. subst entry. simpl.
    rewrite summary_of_snoc_new; [done|]. by rewrite <- elem_of_first_seen.
Qed.

Lemma group_scan c :
  _group_documents_by_id (scan c) doc_type
  = summary_of doc_type (rec_metadata <$> c)
      <$> first_seen (doc_id_of <$> (rec_metadata <$> c)).
Proof.
  unfold _group_documents_by_id. simpl. rewrite group_fold.
  rewrite <- list_fmap_compose. by apply list_fmap_ext.
Qed.

Lemma summary_of_id mds k : s_document_id (summary_of doc_type mds k) = k.
Proof.
  unfold summary_of, seed_summary. simpl.
  by destruct (String.eqb doc_type "policy").
Qed.

End Grouping.

Lemma filter_fmap_metadata (P : gmap string value → Prop)
    `{∀ md, Decision (P md)} (c : list chunk_record) :
  filter P (rec_metadata <$> c) = rec_metadata <$> filter (λ r, P (rec_metadata r)) c.
Proof.
  induction c as [|r c IH]; [done|]. rewrite fmap_cons.
  destruct (decide (P (rec_metadata r))) as [Hr|Hr].
  - rewrite !filter_cons_True by done. by rewrite fmap_cons, IH.
  - by rewrite !filter_cons_False by done.
Qed.

(** The first element of a list that satisfies a decidable predicate. *)
Lemma first_occurrence {A} (P : A → Prop) `{∀ x, Decision (P x)} (l : list A) x :
  x ∈ l → P x →
  ∃ pre y post, l = pre ++ y :: post ∧ P y ∧ (∀ z, z ∈ pre → ¬ P z) ∧
                filter P l = y :: filter P post.
Proof.
  intros Hx HP. induction l as [|a l IH]; [by apply elem_of_nil in Hx|].
  destruct (decide (P a)) as [Ha|Ha].
  - exists [], a, l. repeat split; [done | | by rewrite filter_cons_True].
    by intros z ?%elem_of_nil.
  - apply elem_of_cons in Hx as [->|Hx]; [done|].
    destruct (IH Hx) as (pre & y & post & -> & Hy & Hpre & Hf).
    exists (a :: pre), y, post. repeat split; [done | |].
    + intros z [->|Hz]%elem_of_cons; [done | by apply Hpre].
    + by rewrite filter_cons_False.
Qed.

Lemma seed_summary_fields k md doc_type :
  let s := seed_summary k md doc_type in
  s_document_type s = doc_type ∧
  s_document_name s = dict_get md "document_name" ∧
  (doc_type = "policy" →
     s_clause_type s = Some (dict_get_default md "clause_type" (VStr "general")) ∧
     s_risk_level s = Some (dict_get_default md "risk_level" (VStr "medium")) ∧
     s_policy_id s = Some (dict_get_default md "policy_id" k)) ∧
  (doc_type ≠ "policy" →
     s_clause_type s = None ∧ s_risk_level s = None ∧ s_policy_id s = None).
Proof.
  unfold seed_summary. destruct (String.eqb doc_type "policy") eqn:E; simpl.
  - apply String.eqb_eq in E. by repeat split.
  - apply String.eqb_neq in E. by repeat split.
Qed.

(** The groups of a scanned collection summarise it. *)
Lemma grouped_scan doc_type c :
  grouped doc_type c (_group_documents_by_id (scan c) doc_type).
Proof.
  rewrite group_scan.
  set (mds := rec_metadata <$> c). set (ks := first_seen (doc_id_of <$> mds)).
  assert (s_document_id <$> (summary_of doc_type mds <$> ks) = ks) as Hkeys.
  { rewrite <- list_fmap_compose. rewrite <- (list_fmap_id ks) at 2.
    apply list_fmap_ext. intros i k _. apply summary_of_id. }
  assert (∀ k, k ∈ ks ↔ ∃ r, r ∈ c ∧ doc_id_of (rec_metadata r) = k) as Hks.
  { intros k. subst ks mds. rewrite elem_of_first_seen, <- list_fmap_compose.
    rewrite list_elem_of_fmap. split.
    - intros (r & -> & Hr). by exists r.
    - intros (r & Hr & <-). by exists r. }
  split; [|split].
  - rewrite Hkeys. apply first_seen_NoDup.
  - intros k. by rewrite Hkeys.
  - intros s (k & -> & Hk)%list_elem_of_fmap. rewrite summary_of_id.
    apply Hks in Hk as (r0 & Hr0 & Hid0).
    destruct (first_occurrence (λ r, doc_id_of (rec_metadata r) = k) c r0 Hr0 Hid0)
      as (pre & r & post & Hc & Hr & Hpre & Hfilter).
    unfold summary_of. subst mds.
    rewrite (filter_fmap_metadata (λ md, doc_id_of md = k)), Hfilter. simpl.
    destruct (seed_summary_fields k (rec_metadata r) doc_type) as (H1 & H2 & H3 & H4).
    split; [done|]. split; [(do 2 f_equal); apply length_fmap|].
    exists pre, r, post. do 4 (split; [done|]). by split.
Qed.

Lemma scan_ids_nil c : Chroma.g_ids (scan c) = [] → c = [].
Proof. by destruct c. Qed.

(** One half of [list_documents], for every script. *)
Lemma list_part_spec document_type doc_type documents w :
  list_part document_type doc_type documents w =
    if match document_type with
       | None => true
       | Some t => String.eqb t doc_type
       end
    then (if raises_next w then Raise StoreError
          else Return (documents ++
                       _group_documents_by_id (scan (Chroma.coll (target doc_type) w)) doc_type),
          advance w)
    else (Return documents, w).
Proof.
  unfold list_part.
  destruct (match document_type with None => true | Some t => String.eqb t doc_type end);
    [|done].
  unfold_monad. rewrite select_collection_spec, get_spec.
  destruct (raises_next w); [done|]. rewrite filter_matches_all.
  destruct (Chroma.g_ids (scan (Chroma.coll (target doc_type) w))) eqn:E; [|done].
  apply scan_ids_nil in E. rewrite E. simpl. by rewrite app_nil_r.
Qed.

(** [list_documents()] when neither scan raises: the groups of the
    contract collection, then those of the policy collection. *)
Lemma list_documents_all_spec w :
  raises_next w = false →
  raises_next (advance w) = false →
  list_documents None w =
    (Return (_group_documents_by_id (scan (contract_collection w)) "contract" ++
             _group_documents_by_id (scan (policy_collection w)) "policy"),
     advance (advance w)).
Proof.
  intros H1 H2. unfold list_documents. unfold_monad.
  rewrite list_part_spec, H1. simpl. rewrite list_part_spec, H2. done.
Qed.

(** X2.  The groups of a scanned collection come in the order in which
    their ids are first met. *)
Theorem groups_in_first_seen_order (doc_type : string) (c : list chunk_record) :
  s_document_id <$> _group_documents_by_id (scan c) doc_type
  = first_seen (doc_id_of <$> (rec_metadata <$> c)).
Proof.
  rewrite group_scan, <- list_fmap_compose.
  rewrite <- (list_fmap_id (first_seen _)) at 2.
  apply list_fmap_ext. intros i k _. apply summary_of_id.
Qed.

(** ** Listing documents *)

(** C8, as amended.  When neither scan raises, [list_documents()] returns
    the summaries of the contract collection followed by those of the
    policy collection.  Each part has one entry per document id of its own
    collection, the entry counts the records stored under that id in that
    collection, and its name and (for the policy collection) its
    [clause_type], [risk_level] and [policy_id] are those of the first
    record scanned under the id, with the defaults ["general"], ["medium"]
    and the id itself for a key that record lacks. *)
Theorem list_documents_groups_each_collection (w : World) :
  raises_next w = false →
  raises_next (advance w) = false →
  ∃ contracts policies,
    (list_documents None w).1 = Return (contracts ++ policies) ∧
    grouped "contract" (contract_collection w) contracts ∧
    grouped "policy" (policy_collection w) policies.
Proof.
  intros H1 H2. rewrite list_documents_all_spec by done.
  eexists _, _. split; [done|]. split; apply grouped_scan.
Qed.

(** ** Searching *)

Lemma for_each_lookup {A B} (l : list A) (f : nat → M B) (g : A → B) w : ∀ k,
  (∀ i x, l !! i = Some x → f (k + i)%nat w = (Return (g x), w)) →
  for_each f (seq k (length l)) w = (Return (g <$> l), w).
Proof.
  induction l as [|a l IH]; intros k Hf; [done|].
  simpl. unfold bind at 1.
  pose proof (Hf 0%nat a eq_refl) as H0. rewrite Nat.add_0_r in H0. rewrite H0.
  unfold bind at 1. rewrite (IH (S k)); [done|].
  intros i x Hi. replace (S k + i)%nat with (k + S i)%nat by lia. by apply Hf.
Qed.

Section Searching.
Context (encode : string → option embedding).
Context (metric : embedding → embedding → float).

Lemma nearest_elem q n where_ c p :
  p ∈ Chroma.nearest metric q n where_ c →
  p.2 ∈ c ∧ Chroma.matches where_ p.2 = true ∧
  p.1 = metric q (rec_embedding p.2).
Proof.
  unfold Chroma.nearest. intros Hp.
  apply (subseteq_take (Z.to_nat n)) in Hp.
  rewrite merge_sort_Permutation in Hp.
  apply list_elem_of_fmap in Hp as (r & -> & Hr).
  apply list_elem_of_filter in Hr as [Hm Hr]. done.
Qed.

Lemma nearest_length q n where_ c :
  length (Chroma.nearest metric q n where_ c)
  = (Z.to_nat n `min` length (filter (λ r, Chroma.matches where_ r = true) c))%nat.
Proof.
  unfold Chroma.nearest.
  by rewrite length_take, merge_sort_Permutation, length_fmap.
Qed.

Lemma query_spec h q n where_ w :
  Chroma.query metric h [q] n where_ w =
    (if raises_next w then Raise StoreError
     else
       let row := Chroma.nearest metric q n where_ (Chroma.coll h w) in
       Return (Chroma.mkQuery [(λ p, rec_id p.2) <$> row]
                 [(λ p, rec_document p.2) <$> row]
                 [(λ p, rec_metadata p.2) <$> row] [fst <$> row]),
     advance w).
Proof.
  unfold Chroma.query. unfold_monad. rewrite enter_spec.
  destruct (raises_next w); [done|]. by rewrite coll_advance.
Qed.

Lemma format_results_spec collection_type (row : list (float * chunk_record)) w :
  format_results
    (Chroma.mkQuery [(λ p, rec_id p.2) <$> row] [(λ p, rec_document p.2) <$> row]
       [(λ p, rec_metadata p.2) <$> row] [fst <$> row])
    collection_type w
  = (Return (hit collection_type <$> row), w).
Proof.
  unfold format_results. simpl.
  destruct ((λ p : float * chunk_record, rec_id p.2) <$> row)
    as [|i0 ids0] eqn:Hids.
  { apply fmap_nil_inv in Hids. by subst. }
  rewrite <- Hids, length_fmap. apply for_each_lookup. intros i p Hi. simpl.
  unfold format_result, index. unfold_monad. simpl.
  rewrite !list_lookup_fmap, Hi. done.
Qed.

Lemma where_clause_spec (document_id : option string) :
  match document_id with
  | Some d => if truthy document_id then Some ("document_id", VStr d) else None
  | None => None
  end = where_of document_id.
Proof.
  destruct document_id as [d|]; [|done]. simpl.
  by destruct (String.eqb d "").
Qed.

(** What [search_chunks] does, for every script. *)
Lemma search_chunks_spec query document_id top_k collection_type w :
  search_chunks encode metric query document_id top_k collection_type w =
    match encode query with
    | None => (Return [], w)
    | Some q =>
        (if raises_next w then Return []
         else Return (hit collection_type <$>
                        Chroma.nearest metric q top_k (where_of document_id)
                          (Chroma.coll (target collection_type) w)),
         advance w)
    end.
Proof.
  unfold search_chunks. unfold try_except, bind at 1.
  rewrite generate_embedding_spec. destruct (encode query) as [q|]; [|done].
  unfold bind at 1. rewrite select_collection_spec.
  unfold bind at 1. rewrite where_clause_spec, query_spec.
  destruct (raises_next w); [done|]. simpl.
  by rewrite format_results_spec.
Qed.

(** [search_policy_aware] is its two searches, one after the other. *)
Lemma search_policy_aware_spec query document_id contract_top_k policy_top_k w :
  search_policy_aware encode metric query document_id
    contract_top_k policy_top_k w =
  match encode query with
  | None => (Return (mkPolicyAware [] [] query), w)
  | Some q =>
      (Return
         (mkPolicyAware
            (if raises_next w then []
             else hit "contract" <$>
                    Chroma.nearest metric q contract_top_k (where_of document_id)
                      (contract_collection w))
            (if raises_next (advance w) then []
             else hit "policy" <$>
                    Chroma.nearest metric q policy_top_k None
                      (policy_collection w))
            query),
       advance (advance w))
  end.
Proof.
  unfold search_policy_aware. unfold_monad.
  rewrite (search_chunks_spec query document_id contract_top_k "contract" w).
  destruct (encode query) as [q|] eqn:E; simpl.
  - rewrite (search_chunks_spec query None policy_top_k "policy" (advance w)), E.
    destruct (raises_next w); simpl;
      by destruct (raises_next (advance w)).
  - by rewrite (search_chunks_spec query None policy_top_k "policy" w), E.
Qed.

End Searching.

(** C5.  [search_chunks] always returns a list; in each result the
    similarity score is [1 - distance] in double arithmetic, and when the
    query was answered the ids and distances of the results are, in order,
    those of the answer's row. *)
Theorem search_chunks_similarity (encode : string → option embedding)
    (metric : embedding → embedding → float) (query : string)
    (document_id : option string) (top_k : Z) (collection_type : string)
    (w : World) :
  ∃ results,
    (search_chunks encode metric query document_id top_k collection_type w).1
    = Return results ∧
    (∀ r, r ∈ results → similarity_score r = (1 - distance r)%float) ∧
    (∀ q answer,
       encode query = Some q →
       (Chroma.query metric (target collection_type) [q] top_k
          (where_of document_id) w).1 = Return answer →
       Chroma.q_ids answer = [chunk_id <$> results] ∧
       Chroma.q_distances answer = [distance <$> results]).
Proof.
  rewrite search_chunks_spec.
  destruct (encode query) as [q|] eqn:Hq.
  - destruct (raises_next w) eqn:Hw; simpl.
    + exists []. split; [done|]. split; [by intros r ?%elem_of_nil|].
      intros q' answer _. by rewrite query_spec, Hw.
    + eexists. split; [done|]. split.
      * by intros r (p & -> & _)%list_elem_of_fmap.
      * intros q' answer [= <-]. rewrite query_spec, Hw. simpl.
        intros [= <-]. simpl. by rewrite <- !list_fmap_compose.
  - exists []. split; [done|]. split; [by intros r ?%elem_of_nil | done].
Qed.

Lemma raises_next_set_coll h c w :
  raises_next (Chroma.set_coll h c w) = raises_next w.
Proof. by destruct h. Qed.

Lemma delete_chunks_script document_id t w :
  raises_next (_delete_document_chunks document_id t w).2
  = raises_next (advance w).
Proof.
  rewrite delete_chunks_spec. destruct (raises_next w); simpl; [done|].
  apply raises_next_set_coll.
Qed.

(** Every call of [add_document_chunks] returns a truth value. *)
Lemma add_returns encode document_id document_name chunks document_type
    clause_type risk_level policy_id w :
  ∃ b, (add_document_chunks encode document_id document_name chunks
          document_type clause_type risk_level policy_id w).1 = Return b.
Proof.
  destruct (decide (chunks = [])) as [->|Hne].
  - rewrite add_empty_spec. eauto.
  - destruct (decide (Forall (λ c, is_Some (encode c)) chunks)) as [Hall|Hex].
    + rewrite add_chunks_spec by done. simpl.
      destruct (raises_next _); eauto.
    + apply not_Forall_Exists in Hex; [|apply _].
      rewrite add_chunks_embedding_error; [eauto|].
      eapply Exists_impl; [exact Hex|]. simpl. intros c Hn.
      by apply eq_None_not_Some.
Qed.

(** When the insert raises, [add_document_chunks] returns [False]. *)
Lemma add_insert_raises encode document_id document_name chunks document_type
    clause_type risk_level policy_id w :
  chunks ≠ [] →
  raises_next (advance w) = true →
  (add_document_chunks encode document_id document_name chunks
     document_type clause_type risk_level policy_id w).1 = Return false.
Proof.
  intros Hne Hw.
  destruct (decide (Forall (λ c, is_Some (encode c)) chunks)) as [Hall|Hex].
  - rewrite add_chunks_spec by done. simpl.
    by rewrite delete_chunks_script, Hw.
  - apply not_Forall_Exists in Hex; [|apply _].
    rewrite add_chunks_embedding_error; [done|].
    eapply Exists_impl; [exact Hex|]. simpl. intros c Hn.
    by apply eq_None_not_Some.
Qed.

(** When only the delete step raises, the batch is inserted all the same
    and [add_document_chunks] returns [True]. *)
Lemma add_delete_raises encode document_id document_name chunks document_type
    clause_type risk_level policy_id w :
  raises_next w = true →
  Forall (λ c, is_Some (encode c)) chunks →
  raises_next (advance w) = false →
  (add_document_chunks encode document_id document_name chunks
     document_type clause_type risk_level policy_id w).1 = Return true.
Proof.
  intros Hw Hall Hw'. destruct (decide (chunks = [])) as [->|Hne].
  - by rewrite add_empty_spec.
  - rewrite add_chunks_spec by done. simpl.
    by rewrite delete_chunks_script, Hw'.
Qed.

Lemma list_documents_returns document_type w :
  ∃ l, (list_documents document_type w).1 = Return l.
Proof.
  unfold list_documents. unfold_monad. rewrite list_part_spec.
  destruct (match document_type with None => true | Some t => String.eqb t "contract" end).
  - destruct (raises_next w); simpl; [eauto|].
    rewrite list_part_spec.
    destruct (match document_type with None => true | Some t => String.eqb t "policy" end);
      [destruct (raises_next (advance w))|]; simpl; eauto.
  - rewrite list_part_spec.
    destruct (match document_type with None => true | Some t => String.eqb t "policy" end);
      [destruct (raises_next w)|]; simpl; eauto.
Qed.

Lemma list_documents_first_raises document_type w :
  raises_next w = true → (list_documents document_type w).1 = Return [].
Proof.
  intros Hw. unfold list_documents. unfold_monad. rewrite list_part_spec, Hw.
  destruct (match document_type with None => true | Some t => String.eqb t "contract" end);
    simpl; [done|].
  rewrite list_part_spec, Hw.
  by destruct (match document_type with None => true | Some t => String.eqb t "policy" end).
Qed.

Lemma list_documents_second_raises w :
  raises_next (advance w) = true → (list_documents None w).1 = Return [].
Proof.
  intros Hw. unfold list_documents. unfold_monad. rewrite list_part_spec. simpl.
  destruct (raises_next w); simpl; [done|].
  by rewrite list_part_spec, Hw.
Qed.

(** ** Errors of the store *)

(** C6, as amended.  None of the five operations lets an error of the
    store out.  A raising store call makes [_delete_document_chunks] return
    [False], [search_chunks] return the empty list and [list_documents]
    return the empty list, and [add_document_chunks] returns [False] when
    its insert raises.  [search_policy_aware] returns on each side what the
    search of that side returns: the empty list on a side whose query
    raised, and on a side whose query was answered the ranked records of
    its collection, whether or not the other side raised. *)
Theorem store_errors_stay_inside (encode : string → option embedding)
    (metric : embedding → embedding → float) :
  (∀ d t w, ∃ b, (_delete_document_chunks d t w).1 = Return b) ∧
  (∀ d n chunks t ct rl pid w,
     ∃ b, (add_document_chunks encode d n chunks t ct rl pid w).1 = Return b) ∧
  (∀ q did k ct w, ∃ l, (search_chunks encode metric q did k ct w).1 = Return l) ∧
  (∀ dt w, ∃ l, (list_documents dt w).1 = Return l) ∧
  (∀ d t w, raises_next w = true →
     (_delete_document_chunks d t w).1 = Return false) ∧
  (∀ q did k ct w, raises_next w = true →
     (search_chunks encode metric q did k ct w).1 = Return []) ∧
  (∀ dt w, raises_next w = true → (list_documents dt w).1 = Return []) ∧
  (∀ w, raises_next (advance w) = true → (list_documents None w).1 = Return []) ∧
  (∀ d n chunks t ct rl pid w,
     chunks ≠ [] → raises_next (advance w) = true →
     (add_document_chunks encode d n chunks t ct rl pid w).1 = Return false) ∧
  (∀ q did ck pk w,
     let first := search_chunks encode metric q did ck "contract" w in
     let second := search_chunks encode metric q None pk "policy" first.2 in
     ∃ cs ps,
       (search_policy_aware encode metric q did ck pk w).1
       = Return (mkPolicyAware cs ps q) ∧
       first.1 = Return cs ∧
       second.1 = Return ps ∧
       (raises_next w = true → cs = []) ∧
       (raises_next (advance w) = true → ps = []) ∧
       (∀ e, encode q = Some e → raises_next w = false →
          cs = hit "contract" <$>
                 Chroma.nearest metric e ck (where_of did) (contract_collection w)) ∧
       (∀ e, encode q = Some e → raises_next (advance w) = false →
          ps = hit "policy" <$>
                 Chroma.nearest metric e pk None (policy_collection w))).
Proof.
  split_and!.
  - intros d t w. rewrite delete_chunks_spec. destruct (raises_next w); eauto.
  - intros. apply add_returns.
  - intros q did k ct w. rewrite search_chunks_spec.
    destruct (encode q); [destruct (raises_next w)|]; eauto.
  - intros. apply list_documents_returns.
  - intros d t w Hw. by rewrite delete_chunks_spec, Hw.
  - intros q did k ct w Hw. rewrite search_chunks_spec, Hw.
    by destruct (encode q).
  - intros. by apply list_documents_first_raises.
  - intros. by apply list_documents_second_raises.
  - intros. by apply add_insert_raises.
  - intros q did ck pk w first second. subst first second.
    rewrite search_policy_aware_spec.
    rewrite (search_chunks_spec encode metric q did ck "contract" w).
    destruct (encode q) as [e|] eqn:He; simpl.
    + rewrite (search_chunks_spec encode metric q None pk "policy" (advance w)), He.
      eexists _, _. split; [done|].
      destruct (raises_next w) eqn:H1; destruct (raises_next (advance w)) eqn:H2;
        simpl; split_and!; try done; by intros e' [= <-].
    + rewrite (search_chunks_spec encode metric q None pk "policy" w), He.
      exists [], []. by split_and!.
Qed.

(** ** Searching both collections *)

(** C4, as amended.  [search_policy_aware] returns the query with two
    lists.  The contract list holds at most [contract_top_k] results, all
    records of the contract collection, and all of the given document when
    [document_id] is a non-empty string; the policy list holds at most
    [policy_top_k] results, all records of the policy collection.  When
    neither query raises, the contract list is as long as its bound and the
    candidates allow, the candidates being the records of the document for
    a non-empty [document_id] and the whole collection for [None] or the
    empty string; the candidates of the policy list are the whole policy
    collection. *)
Theorem search_policy_aware_sides (encode : string → option embedding)
    (metric : embedding → embedding → float) (query : string)
    (document_id : option string) (contract_top_k policy_top_k : Z)
    (w : World) :
  ∃ cs ps,
    (search_policy_aware encode metric query document_id
       contract_top_k policy_top_k w).1 = Return (mkPolicyAware cs ps query) ∧
    (length cs ≤ Z.to_nat contract_top_k)%nat ∧
    (length ps ≤ Z.to_nat policy_top_k)%nat ∧
    (∀ r, r ∈ cs →
       ∃ rec, rec ∈ contract_collection w ∧
         chunk_id r = rec_id rec ∧ text r = rec_document rec ∧
         metadata r = rec_metadata rec ∧
         (∀ d, document_id = Some d → d ≠ "" → in_document d rec)) ∧
    (∀ r, r ∈ ps →
       ∃ rec, rec ∈ policy_collection w ∧
         chunk_id r = rec_id rec ∧ text r = rec_document rec ∧
         metadata r = rec_metadata rec) ∧
    (is_Some (encode query) →
     raises_next w = false →
     raises_next (advance w) = false →
     (∀ d, document_id = Some d → d ≠ "" →
        length cs = (Z.to_nat contract_top_k
                     `min` length (chunks_of d (contract_collection w)))%nat) ∧
     (truthy document_id = false →
        length cs = (Z.to_nat contract_top_k
                     `min` length (contract_collection w))%nat) ∧
     length ps = (Z.to_nat policy_top_k `min` length (policy_collection w))%nat).
Proof.
  rewrite search_policy_aware_spec.
  destruct (encode query) as [q|] eqn:Hq; simpl.
  - eexists _, _. split; [done|]. split_and!.
    + destruct (raises_next w); simpl; [lia|].
      rewrite length_fmap, nearest_length. lia.
    + destruct (raises_next (advance w)); simpl; [lia|].
      rewrite length_fmap, nearest_length. lia.
    + intros r Hr. destruct (raises_next w); [by apply elem_of_nil in Hr|].
      apply list_elem_of_fmap in Hr as (p & -> & Hp).
      apply nearest_elem in Hp as (Hin & Hm & _).
      exists p.2. repeat split; try done.
      intros d -> Hd. simpl in Hm.
      rewrite (proj2 (String.eqb_neq d "") Hd) in Hm.
      by apply bool_decide_eq_true in Hm.
    + intros r Hr. destruct (raises_next (advance w)); [by apply elem_of_nil in Hr|].
      apply list_elem_of_fmap in Hr as (p & -> & Hp).
      apply nearest_elem in Hp as (Hin & _ & _).
      by exists p.2.
    + intros _ -> ->. rewrite !length_fmap, !nearest_length. split_and!.
      * intros d -> Hd. simpl.
        rewrite (proj2 (String.eqb_neq d "") Hd). by rewrite filter_matches.
      * intros Hd. destruct document_id as [d|]; simpl in *.
        -- apply negb_false_iff in Hd. rewrite Hd. by rewrite filter_matches_all.
        -- by rewrite filter_matches_all.
      * by rewrite filter_matches_all.
  - exists [], []. split; [done|]. split_and!; simpl; try lia.
    + by intros r ?%elem_of_nil.
    + by intros r ?%elem_of_nil.
    + by intros [? [=]].
Qed.

(** ** Routing by the type string *)

(** C10.  Routing tests for the string ["contract"] and nothing else.  For
    the document type ["contract"] [add_document_chunks] leaves the policy
    collection as it was and, when it returns [True], its batch is in the
    contract collection; for any other document type it leaves the contract
    collection as it was and its batch is in the policy collection.  A
    search that the store answers returns the nearest records of the
    contract collection for the collection type ["contract"] and of the
    policy collection for any other.  The records of a batch carry
    [clause_type], [risk_level] and [policy_id] when the document type is
    ["policy"] and none of the three for any other type, so a batch of a
    type other than ["contract"] and ["policy"] is in the policy collection
    without them. *)
Theorem routing_tests_contract_only (encode : string → option embedding)
    (metric : embedding → embedding → float)
    (document_id document_name : string) (chunks : list string)
    (t : string) (clause_type risk_level policy_id : option string)
    (query : string) (filter_id : option string) (top_k : Z) (w : World) :
  let run := add_document_chunks encode document_id document_name chunks t
               clause_type risk_level policy_id w in
  let batch := batch_records encode document_id document_name t
                 clause_type risk_level policy_id chunks in
  (t = "contract" →
     policy_collection run.2 = policy_collection w ∧
     (run.1 = Return true → ∀ r, r ∈ batch → r ∈ contract_collection run.2) ∧
     (∀ q, encode query = Some q → raises_next w = false →
        (search_chunks encode metric query filter_id top_k t w).1
        = Return (hit t <$> Chroma.nearest metric q top_k (where_of filter_id)
                              (contract_collection w)))) ∧
  (t ≠ "contract" →
     contract_collection run.2 = contract_collection w ∧
     (run.1 = Return true → ∀ r, r ∈ batch → r ∈ policy_collection run.2) ∧
     (∀ q, encode query = Some q → raises_next w = false →
        (search_chunks encode metric query filter_id top_k t w).1
        = Return (hit t <$> Chroma.nearest metric q top_k (where_of filter_id)
                              (policy_collection w)))) ∧
  (t = "policy" →
     ∀ r, r ∈ batch →
       is_Some (rec_metadata r !! "clause_type") ∧
       is_Some (rec_metadata r !! "risk_level") ∧
       is_Some (rec_metadata r !! "policy_id")) ∧
  (t ≠ "policy" →
     ∀ r, r ∈ batch →
       rec_metadata r !! "clause_type" = None ∧
       rec_metadata r !! "risk_level" = None ∧
       rec_metadata r !! "policy_id" = None).
Proof.
  intros run batch.
  assert (∀ h, target t = h →
            (∀ h', h' ≠ h → Chroma.coll h' run.2 = Chroma.coll h' w) ∧
            (run.1 = Return true → ∀ r, r ∈ batch → r ∈ Chroma.coll h run.2) ∧
            (∀ q, encode query = Some q → raises_next w = false →
               (search_chunks encode metric query filter_id top_k t w).1
               = Return (hit t <$> Chroma.nearest metric q top_k
                                     (where_of filter_id) (Chroma.coll h w))))
    as Hroute.
  { intros h <-. split_and!.
    - intros h' Hh'.
      by apply (add_other_collection encode document_id document_name chunks t
                  clause_type risk_level policy_id h' w).
    - intros Hok r Hr.
      by apply (add_success_stores encode document_id document_name chunks t
                  clause_type risk_level policy_id w r Hok Hr).
    - intros q Hq Hw. by rewrite search_chunks_spec, Hq, Hw. }
  split_and!.
  - intros ->. destruct (Hroute Chroma.Contract eq_refl) as (H1 & H2 & H3).
    split; [by apply (H1 Chroma.Policy) | by split].
  - intros Ht.
    assert (target t = Chroma.Policy) as Htarget.
    { unfold target. by rewrite (proj2 (String.eqb_neq t "contract") Ht). }
    destruct (Hroute Chroma.Policy Htarget) as (H1 & H2 & H3).
    split; [by apply (H1 Chroma.Contract) | by split].
  - intros -> r (i & chunk & _ & ->)%elem_of_batch. simpl.
    destruct (chunk_metadata_policy document_id document_name
                clause_type risk_level policy_id i chunk) as (P1 & P2 & P3).
    rewrite P1, P2, P3. by repeat split.
  - intros Hp r (i & chunk & _ & ->)%elem_of_batch. simpl.
    by apply chunk_metadata_plain.
Qed.

(** X3.  Whatever the script and the embedder do, [add_document_chunks]
    leaves the collection it is not routed to as it was. *)
Theorem add_document_chunks_frame (encode : string → option embedding)
    (document_id document_name : string) (chunks : list string)
    (document_type : string) (clause_type risk_level policy_id : option string)
    (w : World) :
  let run := add_document_chunks encode document_id document_name chunks
               document_type clause_type risk_level policy_id w in
  (document_type = "contract" →
     policy_collection run.2 = policy_collection w) ∧
  (document_type ≠ "contract" →
     contract_collection run.2 = contract_collection w).
Proof.
  intros run. split; intros Ht.
  - subst document_type.
    by apply (add_other_collection encode document_id document_name chunks
                "contract" clause_type risk_level policy_id Chroma.Policy w).
  - apply (add_other_collection encode document_id document_name chunks
             document_type clause_type risk_level policy_id Chroma.Contract w).
    unfold target. by rewrite (proj2 (String.eqb_neq document_type "contract") Ht).
Qed.

(** ** The theorems at concrete inputs *)

(** Document ["D"], stored in two chunks, is added again with one. *)
Lemma add_document_chunks_replaces_witness :
  let run := add_document_chunks Sample.encode "D" "v2.pdf" ["gamma"] "contract"
               None None None Sample.stored in
  length (chunks_of "D" (contract_collection Sample.stored)) = 2%nat ∧
  chunks_of "D" (contract_collection run.2)
  ≡ₚ batch_records Sample.encode "D" "v2.pdf" "contract" None None None ["gamma"].
Proof.
  split; [reflexivity|].
  apply (add_document_chunks_replaces Sample.encode "D" "v2.pdf" ["gamma"]
           "contract" None None None Sample.stored).
  - reflexivity.
  - reflexivity.
  - apply (bool_decide_unpack _). vm_compute. exact I.
Defined.

(** Against C2 as stated: document ["D"] is stored in two chunks and added
    again with one; the call returns [True], and the id ["D_chunk_0"] of
    the prior batch is an id of the collection afterwards. *)
Lemma readded_chunk_id_still_retrievable :
  let run := add_document_chunks Sample.encode "D" "v2.pdf" ["gamma"] "contract"
               None None None Sample.stored in
  run.1 = Return true ∧
  "D_chunk_0" ∈ rec_id <$> chunks_of "D" (contract_collection Sample.stored) ∧
  "D_chunk_0" ∈ rec_id <$> contract_collection run.2.
Proof.
  repeat split; try reflexivity; apply (bool_decide_unpack _); vm_compute; exact I.
Qed.

(** Contract ["D"], stored in two chunks next to a policy of the same id,
    is added again with no chunk. *)
Lemma add_empty_list_clears_witness :
  let run := add_document_chunks Sample.encode "D" "doc.pdf" [] "contract"
               None None None Sample.shared in
  length (chunks_of "D" (contract_collection Sample.shared)) = 2%nat ∧
  run.1 = Return true ∧
  chunks_of "D" (contract_collection run.2) = [] ∧
  policy_collection run.2 = policy_collection Sample.shared.
Proof.
  split; [reflexivity|].
  destruct (add_empty_list_clears Sample.encode "D" "doc.pdf" "contract"
              None None None Sample.shared eq_refl) as (H1 & H2 & _ & H3).
  split; [exact H1|]. split; [exact H2|].
  apply (H3 Chroma.Policy). discriminate.
Defined.

(** Against C3 as stated: the id ["D"] is populated in both collections;
    the call with an empty list and the default type returns [True], and
    the chunk stored under ["D"] in the policy collection is still there. *)
Lemma emptied_document_stays_in_other_collection :
  let run := add_document_chunks Sample.encode "D" "doc.pdf" [] "contract"
               None None None Sample.shared in
  run.1 = Return true ∧
  rec_id <$> chunks_of "D" (contract_collection Sample.shared
                            ++ policy_collection Sample.shared)
  = ["D_chunk_0"; "D_chunk_1"; "D_chunk_0"] ∧
  rec_id <$> chunks_of "D" (contract_collection run.2 ++ policy_collection run.2)
  = ["D_chunk_0"].
Proof. repeat split; vm_compute; reflexivity. Qed.

(** The second chunk of policy ["P"], added with a risk level only; its
    text has four characters in five bytes. *)
Lemma stored_chunk_fields_witness :
  let run := add_document_chunks Sample.encode "P" "rules.pdf" ["one"; "café"]
               "policy" None (Some "high") None Sample.stored in
  ∃ r, r ∈ policy_collection run.2 ∧
    rec_id r = "P_chunk_1" ∧
    rec_document r = "café" ∧
    rec_metadata r !! "chunk_index" = Some (VInt 1) ∧
    rec_metadata r !! "chunk_length" = Some (VInt 4) ∧
    rec_metadata r !! "section_label" = Some (VStr "chunk_2") ∧
    rec_metadata r !! "clause_type" = Some (VStr "general") ∧
    rec_metadata r !! "risk_level" = Some (VStr "high") ∧
    rec_metadata r !! "policy_id" = Some (VStr "P").
Proof.
  destruct (stored_chunk_fields Sample.encode "P" "rules.pdf" ["one"; "café"]
              "policy" None (Some "high") None Sample.stored
              1 "café" eq_refl eq_refl)
    as (r & Hin & Hid & Hdoc & Hidx & Hlen & Hlabel & Hpolicy).
  destruct (Hpolicy eq_refl) as (Hc & _ & Hp & _ & Hr & _).
  exists r. split; [exact Hin|]. split; [exact Hid|]. split; [exact Hdoc|].
  split; [exact Hidx|]. split; [exact Hlen|]. split; [exact Hlabel|].
  split; [exact (Hc eq_refl)|]. split; [|exact (Hp eq_refl)].
  apply (Hr "high" eq_refl). discriminate.
Defined.

(** The listing of the store that holds ["D"] twice and ["P"] once. *)
Lemma list_documents_groups_each_collection_witness :
  ∃ contracts policies,
    (list_documents None Sample.shared).1 = Return (contracts ++ policies) ∧
    grouped "contract" (contract_collection Sample.shared) contracts ∧
    grouped "policy" (policy_collection Sample.shared) policies.
Proof.
  exact (list_documents_groups_each_collection Sample.shared eq_refl eq_refl).
Defined.

(** Against C8 as stated: the id ["D"] is stored in both collections, two
    chunks as a contract and one as a policy; [list_documents()] returns
    two entries for it, neither counting the three chunks. *)
Lemma list_documents_repeats_shared_id :
  ∃ docs,
    (list_documents None Sample.shared).1 = Return docs ∧
    (λ s, (s_document_id s, s_document_type s, s_chunk_count s)) <$> docs
    = [(VStr "D", "contract", 2); (VStr "D", "policy", 1); (VStr "P", "policy", 2)] ∧
    length (chunks_of "D" (contract_collection Sample.shared
                           ++ policy_collection Sample.shared)) = 3%nat.
Proof.
  eexists. split; [by rewrite list_documents_all_spec|].
  split; vm_compute; reflexivity.
Qed.

(** Against C4 as stated: with the empty string given as [document_id],
    the contract side is not filtered by it and returns the chunks of
    document ["D"]. *)
Lemma empty_document_id_is_not_a_filter :
  ∃ cs ps,
    (search_policy_aware Sample.encode Sample.metric "abc" (Some "") 5 5
       Sample.stored).1 = Return (mkPolicyAware cs ps "abc") ∧
    (λ r, metadata r !! "document_id") <$> cs
    = [Some (VStr "D"); Some (VStr "D")].
Proof.
  eexists _, _. split; [by rewrite search_policy_aware_spec|].
  vm_compute. reflexivity.
Qed.

(** Against C6 as stated: the contract query of [search_policy_aware]
    raises, the policy query is answered, and the policy list holds the
    three policy chunks. *)
Lemma policy_side_survives_contract_error :
  let w := Sample.scripted Sample.shared [true; false] in
  (Chroma.query Sample.metric Chroma.Contract [[3%float]] 5 None w).1
  = Raise StoreError ∧
  Sample.encode "abc" = Some [3%float] ∧
  ∃ cs ps,
    (search_policy_aware Sample.encode Sample.metric "abc" None 5 5 w).1
    = Return (mkPolicyAware cs ps "abc") ∧
    cs = [] ∧ chunk_id <$> ps = ["P_chunk_0"; "P_chunk_1"; "D_chunk_0"].
Proof.
  split; [reflexivity|]. split; [reflexivity|].
  eexists _, _. split; [by rewrite search_policy_aware_spec|].
  split; vm_compute; reflexivity.
Qed.

(** A document of type ["memo"], added next to contract ["D"]. *)
Lemma routing_tests_contract_only_witness :
  let run := add_document_chunks Sample.encode "M" "memo.txt" ["note"] "memo"
               None None None Sample.stored in
  contract_collection run.2 = contract_collection Sample.stored ∧
  ∃ r, r ∈ policy_collection run.2 ∧
       rec_id r = "M_chunk_0" ∧
       rec_metadata r !! "document_type" = Some (VStr "memo") ∧
       rec_metadata r !! "clause_type" = None ∧
       rec_metadata r !! "risk_level" = None ∧
       rec_metadata r !! "policy_id" = None.
Proof.
  destruct (routing_tests_contract_only Sample.encode Sample.metric
              "M" "memo.txt" ["note"] "memo" None None None "note" None 5
              Sample.stored)
    as (_ & Hother & _ & Hplain).
  destruct (Hother ltac:(discriminate)) as (Hframe & Hstored & _).
  split; [exact Hframe|].
  exists (batch_record Sample.encode "M" "memo.txt" "memo" None None None 0 "note").
  assert (batch_record Sample.encode "M" "memo.txt" "memo" None None None 0 "note"
          ∈ batch_records Sample.encode "M" "memo.txt" "memo" None None None ["note"])
    as Hin by left.
  split; [exact (Hstored eq_refl _ Hin)|].
  split; [reflexivity|]. split; [reflexivity|].
  exact (Hplain ltac:(discriminate) _ Hin).
Defined.

(** ** The endpoints that pass a request on *)

(** X4.  [POST /add_document_chunks] answers with status 500 when the
    facade returns [False]; when the facade returns [True] it answers with
    success, a message naming the number of chunks sent, and a
    [chunk_count] of 0, however many chunks were stored.  The state it
    leaves is the one the facade leaves. *)
Theorem add_endpoint_reports_no_chunks (encode : string → option embedding)
    (document_id document_name : string) (chunks : list string)
    (document_type : string) (clause_type risk_level policy_id : option string)
    (w : World) :
  let facade := add_document_chunks encode document_id document_name chunks
                  document_type clause_type risk_level policy_id w in
  let run := Api.add_document_chunks encode document_id document_name chunks
               document_type clause_type risk_level policy_id w in
  run.2 = facade.2 ∧
  (facade.1 = Return true →
     run.1 = Return (Api.mkAddResponse true
                       ("Added " +:+ pretty (length chunks)
                        +:+ " chunks for document: " +:+ document_name) 0)) ∧
  (facade.1 = Return false → run.1 = Raise (HTTPException 500)).
Proof.
  intros facade run. subst facade run.
  unfold Api.add_document_chunks, try_except, bind.
  destruct (add_document_chunks encode document_id document_name chunks
              document_type clause_type risk_level policy_id w)
    as [[[]|e] w1]; by repeat split.
Qed.

(** X5.  [POST /search_chunks] always answers, with the results of a search
    of the contract collection: [total_found] is their number, at most
    [top_k], and each is labelled ["contract"] and is a record of the
    contract collection. *)
Theorem search_endpoint_contract_only (encode : string → option embedding)
    (metric : embedding → embedding → float) (query : string)
    (document_id : option string) (top_k : Z) (w : World) :
  ∃ found,
    (Api.search_chunks encode metric query document_id top_k w).1
    = Return (Api.mkSearchResponse found (Z.of_nat (length found)) query) ∧
    (length found ≤ Z.to_nat top_k)%nat ∧
    (∀ r, r ∈ found →
       collection_type r = "contract" ∧
       ∃ rec, rec ∈ contract_collection w ∧ chunk_id r = rec_id rec ∧
              text r = rec_document rec ∧ metadata r = rec_metadata rec).
Proof.
  unfold Api.search_chunks. unfold_monad. rewrite search_chunks_spec.
  destruct (encode query) as [q|]; simpl.
  - destruct (raises_next w); simpl.
    + exists []. split; [done|]. split; [simpl; lia|]. by intros r ?%elem_of_nil.
    + eexists. split; [done|]. split.
      * rewrite length_fmap, nearest_length. lia.
      * intros r (p & -> & Hp)%list_elem_of_fmap.
        apply nearest_elem in Hp as (Hin & _ & _).
        split; [done|]. by exists p.2.
  - exists []. split; [done|]. split; [simpl; lia|]. by intros r ?%elem_of_nil.
Qed.

(** ** What a call leaves alone *)

Lemma list_documents_state document_type w :
  contract_collection (list_documents document_type w).2 = contract_collection w ∧
  policy_collection (list_documents document_type w).2 = policy_collection w.
Proof.
  unfold list_documents. unfold_monad. rewrite list_part_spec.
  destruct (match document_type with None => true | Some t => String.eqb t "contract" end).
  - destruct (raises_next w); simpl; [done|].
    rewrite list_part_spec.
    destruct (match document_type with None => true | Some t => String.eqb t "policy" end);
      [destruct (raises_next (advance w))|]; done.
  - rewrite list_part_spec.
    destruct (match document_type with None => true | Some t => String.eqb t "policy" end);
      [destruct (raises_next w)|]; done.
Qed.

Lemma search_chunks_state encode metric query document_id top_k collection_type w :
  contract_collection
    (search_chunks encode metric query document_id top_k collection_type w).2
  = contract_collection w ∧
  policy_collection
    (search_chunks encode metric query document_id top_k collection_type w).2
  = policy_collection w.
Proof. rewrite search_chunks_spec. by destruct (encode query). Qed.

Lemma search_policy_aware_state encode metric query document_id ck pk w :
  contract_collection
    (search_policy_aware encode metric query document_id ck pk w).2
  = contract_collection w ∧
  policy_collection
    (search_policy_aware encode metric query document_id ck pk w).2
  = policy_collection w.
Proof. rewrite search_policy_aware_spec. by destruct (encode query). Qed.

(** X6.  The four reading operations leave both collections as they were,
    whatever the embedder and the store do. *)
Theorem reads_leave_collections (encode : string → option embedding)
    (metric : embedding → embedding → float) (w : World) :
  (∀ q d k t,
     let w' := (search_chunks encode metric q d k t w).2 in
     contract_collection w' = contract_collection w ∧
     policy_collection w' = policy_collection w) ∧
  (∀ q d ck pk,
     let w' := (search_policy_aware encode metric q d ck pk w).2 in
     contract_collection w' = contract_collection w ∧
     policy_collection w' = policy_collection w) ∧
  (∀ d,
     let w' := (get_document_info d w).2 in
     contract_collection w' = contract_collection w ∧
     policy_collection w' = policy_collection w) ∧
  (∀ t,
     let w' := (list_documents t w).2 in
     contract_collection w' = contract_collection w ∧
     policy_collection w' = policy_collection w).
Proof.
  split_and!.
  - intros. apply search_chunks_state.
  - intros. apply search_policy_aware_state.
  - done.
  - intros. apply list_documents_state.
Qed.

(** X7.  [list_documents] with a type: for ["contract"] and for ["policy"]
    it scans that collection alone and returns its groups; for any other
    string it returns the empty list without calling the store. *)
Theorem list_documents_by_type (t : string) (w : World) :
  (t = "contract" → raises_next w = false →
     ∃ l, list_documents (Some t) w = (Return l, advance w) ∧
          grouped "contract" (contract_collection w) l) ∧
  (t = "policy" → raises_next w = false →
     ∃ l, list_documents (Some t) w = (Return l, advance w) ∧
          grouped "policy" (policy_collection w) l) ∧
  (t ≠ "contract" → t ≠ "policy" → list_documents (Some t) w = (Return [], w)).
Proof.
  split_and!.
  - intros -> Hw. unfold list_documents. unfold_monad.
    rewrite list_part_spec, Hw. simpl.
    eexists. split; [done|]. apply grouped_scan.
  - intros -> Hw. unfold list_documents. unfold_monad.
    rewrite list_part_spec. simpl. rewrite list_part_spec, Hw. simpl.
    eexists. split; [done|]. apply grouped_scan.
  - intros H1 H2. unfold list_documents. unfold_monad.
    rewrite list_part_spec, (proj2 (String.eqb_neq t "contract") H1).
    by rewrite list_part_spec, (proj2 (String.eqb_neq t "policy") H2).
Qed.

(** ** A failed add *)

(** X8.  [add_document_chunks] deletes before it embeds and inserts.  When
    the delete step goes through and then a chunk is refused by the
    embedder, or the insert raises, the call returns [False] and the target
    collection has lost the prior records of the document all the same. *)
Theorem failed_add_loses_old_chunks (encode : string → option embedding)
    (document_id document_name : string) (chunks : list string)
    (document_type : string) (clause_type risk_level policy_id : option string)
    (w : World) :
  let run := add_document_chunks encode document_id document_name chunks
               document_type clause_type risk_level policy_id w in
  raises_next w = false →
  chunks ≠ [] →
  Exists (λ c, encode c = None) chunks ∨ raises_next (advance w) = true →
  run.1 = Return false ∧
  Chroma.coll (target document_type) run.2
  = without document_id (Chroma.coll (target document_type) w).
Proof.
  intros run Hw Hne Hfail. subst run.
  assert (Chroma.coll (target document_type)
            (_delete_document_chunks document_id document_type w).2
          = without document_id (Chroma.coll (target document_type) w)) as Hdel.
  { rewrite delete_chunks_spec, Hw. simpl. apply coll_set_coll. }
  destruct (decide (Forall (λ c, is_Some (encode c)) chunks)) as [Hall|Hex].
  - destruct Hfail as [Hex|Hraise].
    + exfalso. apply Exists_exists in Hex as (c & Hc & Hnone).
      rewrite Forall_forall in Hall. destruct (Hall c Hc) as [v Hv]. congruence.
    + rewrite add_chunks_spec by done. simpl.
      rewrite delete_chunks_script, Hraise. simpl.
      by rewrite coll_advance.
  - apply not_Forall_Exists in Hex; [|apply _].
    rewrite add_chunks_embedding_error; [done|].
    eapply Exists_impl; [exact Hex|]. simpl. intros c Hn.
    by apply eq_None_not_Some.
Qed.

(** ** Chunk ids *)

Lemma pretty_N_char_digit x : is_digit (pretty_N_char x) = true.
Proof.
  unfold pretty_N_char. by repeat case_match.
Qed.

Lemma chars_app (s1 s2 : string) :
  Strings.String.list_ascii_of_string (s1 +:+ s2)
  = Strings.String.list_ascii_of_string s1 ++ Strings.String.list_ascii_of_string s2.
Proof. induction s1 as [|a s1 IH]; simpl; [done | by rewrite IH]. Qed.

Lemma chars_inj (s1 s2 : string) :
  Strings.String.list_ascii_of_string s1 = Strings.String.list_ascii_of_string s2 → s1 = s2.
Proof.
  intros H. rewrite <- (Strings.String.string_of_list_ascii_of_string s1).
  rewrite <- (Strings.String.string_of_list_ascii_of_string s2). by rewrite H.
Qed.

Lemma pretty_N_go_digits x : ∀ s,
  Forall (λ a, is_digit a = true) (Strings.String.list_ascii_of_string s) →
  Forall (λ a, is_digit a = true) (Strings.String.list_ascii_of_string (pretty_N_go x s)).
Proof.
  induction (N.lt_wf_0 x) as [x _ IH]; intros s Hs.
  assert (x = 0 ∨ 0 < x)%N as [->|Hx] by lia.
  - by rewrite pretty_N_go_0.
  - rewrite pretty_N_go_step by done. apply IH.
    + by apply N.div_lt.
    + simpl. constructor; [apply pretty_N_char_digit | done].
Qed.

Lemma pretty_nat_digits (n : nat) :
  Forall (λ a, is_digit a = true) (Strings.String.list_ascii_of_string (pretty n)).
Proof.
  unfold pretty, pretty_nat, pretty, pretty_N.
  destruct (decide (N.of_nat n = 0%N)).
  - simpl. by repeat constructor.
  - by apply pretty_N_go_digits.
Qed.

(** Two lists that start with runs of [P] ended by a non-[P] element
    agree on the run and on the rest. *)
Lemma split_at_first_other {A} (P : A → Prop) (l1 l2 : list A) x y r1 r2 :
  Forall P l1 → Forall P l2 → ¬ P x → ¬ P y →
  l1 ++ x :: r1 = l2 ++ y :: r2 →
  l1 = l2 ∧ x :: r1 = y :: r2.
Proof.
  intros H1. revert l2. induction H1 as [|a l1 Ha H1 IH]; intros l2 H2 Hx Hy Heq.
  - destruct H2 as [|b l2 Hb H2]; [done|].
    simpl in Heq. injection Heq as -> _. done.
  - destruct H2 as [|b l2 Hb H2].
    + simpl in Heq. injection Heq as -> _. done.
    + simpl in Heq. injection Heq as -> Heq.
      destruct (IH l2 H2 Hx Hy Heq) as [-> ?]. done.
Qed.

(** X9.  The id of a chunk determines its document and its index: two
    pairs of a document id and an index that give the same chunk id are the
    same pair, whatever characters the document ids hold. *)
Theorem make_chunk_id_determines (d1 d2 : string) (i1 i2 : nat) :
  make_chunk_id d1 i1 = make_chunk_id d2 i2 ↔ d1 = d2 ∧ i1 = i2.
Proof.
  split; [|by intros [-> ->]].
  unfold make_chunk_id. intros H.
  apply (f_equal Strings.String.list_ascii_of_string) in H.
  rewrite !chars_app in H. apply (f_equal (@rev _)) in H.
  rewrite !rev_app_distr in H.
  rewrite <- !app_assoc in H. simpl in H.
  apply (split_at_first_other (λ a, is_digit a = true)) in H as [Hp Hd].
  - apply (f_equal (@rev _)) in Hp. rewrite !rev_involutive in Hp.
    apply chars_inj, (inj pretty) in Hp.
    injection Hd as Hd. apply (f_equal (@rev _)) in Hd.
    rewrite !rev_involutive in Hd. by apply chars_inj in Hd.
  - apply Forall_rev, pretty_nat_digits.
  - apply Forall_rev, pretty_nat_digits.
  - done.
  - done.
Qed.

(** ** What every call keeps *)

Lemma filter_ids_NoDup (P : chunk_record → Prop) `{∀ r, Decision (P r)} c :
  NoDup (rec_id <$> c) → NoDup (rec_id <$> filter P c).
Proof.
  induction c as [|r c IH]; [done|]. rewrite fmap_cons.
  intros [Hr Hc]%NoDup_cons. destruct (decide (P r)).
  - rewrite filter_cons_True by done. rewrite fmap_cons.
    apply NoDup_cons. split; [|by apply IH].
    intros (r' & Hid & [_ Hr']%list_elem_of_filter)%list_elem_of_fmap.
    apply Hr. rewrite Hid. by apply list_elem_of_fmap_2.
  - rewrite filter_cons_False by done. by apply IH.
Qed.

Lemma upsert_ids x r c :
  x ∈ rec_id <$> Chroma.upsert r c → x = rec_id r ∨ x ∈ rec_id <$> c.
Proof.
  intros (r' & -> & [->|Hr']%elem_of_upsert)%list_elem_of_fmap; [by left|].
  right. by apply list_elem_of_fmap_2.
Qed.

Lemma upsert_NoDup r c :
  NoDup (rec_id <$> c) → NoDup (rec_id <$> Chroma.upsert r c).
Proof.
  induction c as [|r' c IH]; simpl.
  - intros _. apply NoDup_singleton.
  - intros [Hr' Hc]%NoDup_cons.
    destruct (String.eqb (rec_id r') (rec_id r)) eqn:E.
    + apply String.eqb_eq in E. rewrite fmap_cons, <- E.
      by apply NoDup_cons.
    + apply String.eqb_neq in E. rewrite fmap_cons.
      apply NoDup_cons. split; [|by apply IH].
      by intros [?|?]%upsert_ids.
Qed.

Lemma upsert_all_NoDup rs : ∀ c,
  NoDup (rec_id <$> c) → NoDup (rec_id <$> Chroma.upsert_all rs c).
Proof.
  induction rs as [|r rs IH]; intros c Hc; simpl; [done|].
  by apply IH, upsert_NoDup.
Qed.

Lemma batch_consistent encode d n t ct rl pid chunks :
  Forall consistent (batch_records encode d n t ct rl pid chunks).
Proof.
  apply Forall_forall. intros r (i & chunk & _ & ->)%elem_of_batch.
  exists d, i.
  destruct (chunk_metadata_base d n t ct rl pid i chunk) as (_ & _ & H1 & H2 & _).
  split; [apply chunk_metadata_document_id|]. by repeat split.
Qed.

Lemma sound_without d c : sound c → sound (without d c).
Proof.
  intros [Hnd Hall]. split.
  - unfold without. by apply filter_ids_NoDup.
  - apply Forall_forall. intros r [_ Hr]%elem_of_without.
    by apply (proj1 (Forall_forall _ _) Hall).
Qed.

Lemma sound_upsert_all rs c :
  Forall consistent rs → sound c → sound (Chroma.upsert_all rs c).
Proof.
  intros Hrs [Hnd Hall]. split; [by apply upsert_all_NoDup|].
  apply Forall_forall. intros r [Hr|Hr]%elem_of_upsert_all.
  - by apply (proj1 (Forall_forall _ _) Hrs).
  - by apply (proj1 (Forall_forall _ _) Hall).
Qed.

Lemma store_sound_advance w : store_sound w → store_sound (advance w).
Proof. done. Qed.

Lemma store_sound_set_coll h c w :
  sound c → store_sound w → store_sound (Chroma.set_coll h c w).
Proof. intros Hc [H1 H2]. by destruct h. Qed.

Lemma store_sound_coll h w : store_sound w → sound (Chroma.coll h w).
Proof. intros [H1 H2]. by destruct h. Qed.

Lemma delete_sound d t w :
  store_sound w → store_sound (_delete_document_chunks d t w).2.
Proof.
  intros Hw. rewrite delete_chunks_spec. destruct (raises_next w); simpl.
  - by apply store_sound_advance.
  - apply store_sound_set_coll; [|by apply store_sound_advance].
    by apply sound_without, store_sound_coll.
Qed.

Lemma add_sound encode d n chunks t ct rl pid w :
  store_sound w →
  store_sound (add_document_chunks encode d n chunks t ct rl pid w).2.
Proof.
  intros Hw. pose proof (delete_sound d t w Hw) as Hd.
  destruct (decide (chunks = [])) as [->|Hne].
  - by rewrite add_empty_spec.
  - destruct (decide (Forall (λ c, is_Some (encode c)) chunks)) as [Hall|Hex].
    + rewrite add_chunks_spec by done. simpl.
      destruct (raises_next _); simpl.
      * by apply store_sound_advance.
      * apply store_sound_set_coll; [|by apply store_sound_advance].
        apply sound_upsert_all; [apply batch_consistent|].
        by apply store_sound_coll.
    + apply not_Forall_Exists in Hex; [|apply _].
      rewrite add_chunks_embedding_error; [done|].
      eapply Exists_impl; [exact Hex|]. simpl. intros c Hn.
      by apply eq_None_not_Some.
Qed.

Lemma store_sound_same w w' :
  contract_collection w' = contract_collection w ∧
  policy_collection w' = policy_collection w →
  store_sound w → store_sound w'.
Proof. unfold store_sound. by intros [-> ->]. Qed.

Lemma clear_all_spec w :
  clear_all w =
    if raises_next w then (Return false, advance w)
    else (Return true, mkWorld [] [] (tail (faults w))).
Proof.
  unfold clear_all, client_reset. unfold_monad. rewrite enter_spec.
  by destruct (raises_next w).
Qed.

Lemma sound_nil : sound [].
Proof. split; [apply NoDup_nil_2 | apply Forall_nil_2]. Qed.

(** X10.  Unique ids and consistent records are kept by every call of the
    facade, whatever the embedder and the store do during it: if in both
    collections no two records share an id and every record has the id
    [{document_id}_chunk_{chunk_index}] of its own metadata and a
    [chunk_length] equal to [len] of its text (code points), the same
    holds after any sequence of calls. *)
Theorem calls_keep_store_sound (encode : string → option embedding)
    (metric : embedding → embedding → float) (cs : list call) (w : World) :
  store_sound w → store_sound (after_all encode metric cs w).
Proof.
  unfold after_all. revert w. induction cs as [|c cs IH]; intros w Hw; [done|].
  simpl. apply IH. destruct c; simpl.
  - by apply add_sound.
  - by apply delete_sound.
  - eapply store_sound_same; [apply search_chunks_state | done].
  - eapply store_sound_same; [apply search_policy_aware_state | done].
  - done.
  - eapply store_sound_same; [apply list_documents_state | done].
  - rewrite clear_all_spec. destruct (raises_next w); simpl.
    + by apply store_sound_advance.
    + split; apply sound_nil.
Qed.

(** ** Adding to a collection of keyed records *)

Lemma consistent_keyed r : consistent r → keyed r.
Proof. intros (d & i & Hd & Hid & _). by exists d, i. Qed.

Lemma upsert_fresh r c :
  rec_id r ∉ rec_id <$> c → Chroma.upsert r c = c ++ [r].
Proof.
  induction c as [|r' c IH]; [done|].
  rewrite fmap_cons. intros [Hne Hc]%not_elem_of_cons. simpl.
  rewrite (proj2 (String.eqb_neq (rec_id r') (rec_id r))) by done.
  by rewrite IH.
Qed.

Lemma upsert_all_fresh rs : ∀ c,
  NoDup (rec_id <$> rs) →
  (∀ x, x ∈ rec_id <$> rs → x ∉ rec_id <$> c) →
  Chroma.upsert_all rs c = c ++ rs.
Proof.
  induction rs as [|r rs IH]; intros c Hnd Hfresh; simpl.
  - by rewrite app_nil_r.
  - rewrite fmap_cons in Hnd. apply NoDup_cons in Hnd as [Hr Hnd].
    rewrite upsert_fresh by (apply Hfresh; rewrite fmap_cons; left).
    rewrite IH; [by rewrite <- app_assoc | done |].
    intros x Hx. rewrite fmap_app. intros [Hc|Hc]%elem_of_app.
    + apply (Hfresh x); [rewrite fmap_cons; by right | done].
    + simpl in Hc. apply list_elem_of_singleton in Hc. by subst.
Qed.

Lemma without_batch encode d n t ct rl pid chunks :
  without d (batch_records encode d n t ct rl pid chunks) = [].
Proof.
  pose proof (batch_in_document encode d n t ct rl pid chunks) as Hall.
  unfold without. induction Hall as [|r rs Hr Hall IH]; [done|].
  by rewrite filter_cons_False by tauto.
Qed.

Lemma without_without d c : without d (without d c) = without d c.
Proof.
  unfold without. induction c as [|r c IH]; [done|].
  destruct (decide (in_document d r)) as [Hr|Hr].
  - by rewrite (filter_cons_False _ r c) by tauto.
  - rewrite (filter_cons_True _ r c) by done.
    rewrite filter_cons_True by done. by rewrite IH.
Qed.

(** X11.  On a target collection in which every record's id is built from
    the document id of its own metadata and an index, a call of
    [add_document_chunks] that returned [True] and whose delete step did
    not raise leaves the records of every other document as they were and
    in their order, followed by the new batch in the order of the list. *)
Theorem add_appends_batch (encode : string → option embedding)
    (document_id document_name : string) (chunks : list string)
    (document_type : string) (clause_type risk_level policy_id : option string)
    (w : World) :
  let run := add_document_chunks encode document_id document_name chunks
               document_type clause_type risk_level policy_id w in
  raises_next w = false →
  run.1 = Return true →
  Forall keyed (Chroma.coll (target document_type) w) →
  Chroma.coll (target document_type) run.2
  = without document_id (Chroma.coll (target document_type) w)
    ++ batch_records encode document_id document_name document_type
         clause_type risk_level policy_id chunks.
Proof.
  intros run Hw Hok Hall. subst run.
  rewrite add_success_target by done.
  apply upsert_all_fresh; [apply batch_ids_NoDup|].
  intros x (i & _ & ->)%elem_of_batch_ids.
  intros (r & Hid & [Hdoc Hr]%elem_of_without)%list_elem_of_fmap.
  destruct (proj1 (Forall_forall _ _) Hall r Hr) as (d' & i' & Hd' & Hid').
  rewrite Hid' in Hid. apply make_chunk_id_determines in Hid as [-> _]. done.
Qed.

(** X12.  Adding the same document twice in a row is adding it once: on a
    target collection in which every record's id is built from the document
    id of its own metadata and an index, when both calls return [True] and
    neither delete step raises, the second call leaves the target
    collection as the first left it. *)
Theorem add_twice_is_add_once (encode : string → option embedding)
    (document_id document_name : string) (chunks : list string)
    (document_type : string) (clause_type risk_level policy_id : option string)
    (w : World) :
  let add := add_document_chunks encode document_id document_name chunks
               document_type clause_type risk_level policy_id in
  raises_next w = false →
  (add w).1 = Return true →
  raises_next (add w).2 = false →
  (add (add w).2).1 = Return true →
  Forall keyed (Chroma.coll (target document_type) w) →
  Chroma.coll (target document_type) (add (add w).2).2
  = Chroma.coll (target document_type) (add w).2.
Proof.
  intros add Hw Hok Hw' Hok' Hall. subst add.
  pose proof (add_appends_batch encode document_id document_name chunks
                document_type clause_type risk_level policy_id w Hw Hok Hall) as H1.
  simpl in H1.
  rewrite (add_appends_batch encode document_id document_name chunks
             document_type clause_type risk_level policy_id _ Hw' Hok').
  - rewrite H1. unfold without at 1. rewrite filter_app.
    fold (without document_id (without document_id
            (Chroma.coll (target document_type) w))).
    fold (without document_id
            (batch_records encode document_id document_name document_type
               clause_type risk_level policy_id chunks)).
    by rewrite without_without, without_batch, app_nil_r.
  - rewrite H1. apply Forall_app. split.
    + apply Forall_forall. intros r [_ Hr]%elem_of_without.
      by apply (proj1 (Forall_forall _ _) Hall).
    + eapply Forall_impl; [apply batch_consistent | apply consistent_keyed].
Qed.

(** ** Adding, then reading *)

Lemma doc_id_of_in_document d r :
  doc_id_of (rec_metadata r) = VStr d ↔ in_document d r.
Proof.
  unfold doc_id_of, dict_get, in_document.
  destruct (rec_metadata r !! "document_id") as [v|]; simpl; split; congruence.
Qed.

Lemma filter_doc_id_of d c :
  filter (λ r, doc_id_of (rec_metadata r) = VStr d) c = chunks_of d c.
Proof. unfold chunks_of. apply list_filter_iff, doc_id_of_in_document. Qed.

Section Reading.
Context (encode : string → option embedding).
Context (metric : embedding → embedding → float).
Context (document_id document_name : string) (chunks : list string).
Context (document_type : string).
Context (clause_type risk_level policy_id : option string).

Let add := add_document_chunks encode document_id document_name chunks
             document_type clause_type risk_level policy_id.
Let batch := batch_records encode document_id document_name document_type
               clause_type risk_level policy_id chunks.
Let h := target document_type.

(** The records of the document after a call that returned [True] and
    whose delete step did not raise: the batch, each record once. *)
Lemma added_chunks_of w :
  raises_next w = false →
  (add w).1 = Return true →
  chunks_of document_id (Chroma.coll h (add w).2) ≡ₚ batch.
Proof.
  intros Hw Hok. subst add batch h. rewrite add_success_target by done.
  rewrite chunks_of_upsert_all.
  - by rewrite chunks_of_without.
  - apply batch_in_document.
  - apply batch_ids_NoDup.
  - by intros x [Hx _]%elem_of_without Hdoc.
Qed.

(** The summary of the document in the groups of the target collection. *)
Lemma added_summary w label :
  raises_next w = false →
  (add w).1 = Return true →
  chunks ≠ [] →
  ∃ s r,
    s ∈ _group_documents_by_id (scan (Chroma.coll h (add w).2)) label ∧
    r ∈ batch ∧
    s_document_id s = VStr document_id ∧
    s_document_type s = label ∧
    s_chunk_count s = Z.of_nat (length chunks) ∧
    s_document_name s = dict_get (rec_metadata r) "document_name" ∧
    (label = "policy" →
       s_clause_type s
       = Some (dict_get_default (rec_metadata r) "clause_type" (VStr "general")) ∧
       s_risk_level s
       = Some (dict_get_default (rec_metadata r) "risk_level" (VStr "medium")) ∧
       s_policy_id s
       = Some (dict_get_default (rec_metadata r) "policy_id" (VStr document_id))).
Proof.
  intros Hw Hok Hne.
  pose proof (added_chunks_of w Hw Hok) as Hperm.
  destruct (grouped_scan label (Chroma.coll h (add w).2)) as (_ & Hids & Hall).
  assert (0 < length chunks)%nat as Hlen.
  { destruct (decide (length chunks = 0%nat)) as [E|]; [|lia].
    by apply nil_length_inv in E. }
  destruct (lookup_lt_is_Some_2 chunks 0 Hlen) as [c0 Hc0].
  assert (batch_record encode document_id document_name document_type
            clause_type risk_level policy_id 0 c0 ∈ batch) as Hfirst.
  { subst batch. apply elem_of_batch. by exists 0%nat, c0. }
  assert (VStr document_id
          ∈ s_document_id <$>
              _group_documents_by_id (scan (Chroma.coll h (add w).2)) label)
    as (s & Hid & Hs)%list_elem_of_fmap.
  { apply Hids. eexists. split.
    - rewrite <- Hperm in Hfirst. by apply elem_of_chunks_of in Hfirst as [_ ?].
    - apply doc_id_of_in_document, chunk_metadata_document_id. }
  destruct (Hall s Hs) as (Htype & Hcount & pre & r & post & Hsplit & Hr & _ & Hname & Hpol & _).
  rewrite <- Hid in Hcount, Hr, Hpol.
  exists s, r. split; [done|]. split.
  - rewrite <- Hperm. apply elem_of_chunks_of. split.
    + by apply doc_id_of_in_document.
    + rewrite Hsplit. apply elem_of_app. right. left.
  - split; [done|]. split; [done|]. split; [|by split].
    rewrite Hcount, filter_doc_id_of, Hperm. subst batch.
    unfold batch_records. by rewrite length_imap.
Qed.

End Reading.

(** X13.  A document that was added is listed: after a call of
    [add_document_chunks] with a non-empty list that returned [True] and
    whose delete step did not raise, [list_documents()] (its two scans not
    raising) has an entry with the document's id and name, counting as many
    chunks as the list held, under the type ["contract"] when the document
    type was ["contract"] and under ["policy"] otherwise. *)
Theorem added_document_is_listed (encode : string → option embedding)
    (document_id document_name : string) (chunks : list string)
    (document_type : string) (clause_type risk_level policy_id : option string)
    (w : World) :
  let run := add_document_chunks encode document_id document_name chunks
               document_type clause_type risk_level policy_id w in
  raises_next w = false →
  run.1 = Return true →
  chunks ≠ [] →
  raises_next run.2 = false →
  raises_next (advance run.2) = false →
  ∃ listing s,
    (list_documents None run.2).1 = Return listing ∧ s ∈ listing ∧
    s_document_id s = VStr document_id ∧
    s_document_name s = VStr document_name ∧
    s_chunk_count s = Z.of_nat (length chunks) ∧
    s_document_type s
    = (if String.eqb document_type "contract" then "contract" else "policy").
Proof.
  intros run Hw Hok Hne H1 H2. subst run.
  rewrite list_documents_all_spec by done. simpl.
  set (label := if String.eqb document_type "contract" then "contract" else "policy").
  destruct (added_summary encode document_id document_name chunks document_type
              clause_type risk_level policy_id w label Hw Hok Hne)
    as (s & r & Hs & Hr & Hid & Htype & Hcount & Hname & _).
  apply elem_of_batch in Hr as (i & chunk & _ & ->). simpl in Hname.
  destruct (chunk_metadata_base document_id document_name document_type
              clause_type risk_level policy_id i chunk) as (Hn & _).
  unfold dict_get in Hname. rewrite Hn in Hname. simpl in Hname.
  eexists _, s. split; [done|]. split; [|done].
  apply elem_of_app. subst label. unfold target in Hs.
  destruct (String.eqb document_type "contract"); [by left | by right].
Qed.

(** X14.  How a document stored outside the contract collection is listed:
    after such an add (non-empty list, [True] returned, delete step not
    raising) [list_documents()] has an entry for the document under the
    type ["policy"]; for the document type ["policy"] its [clause_type],
    [risk_level] and [policy_id] are the arguments of the call with their
    defaults, and for any other document type they are ["general"],
    ["medium"] and the document id. *)
Theorem listed_policy_fields (encode : string → option embedding)
    (document_id document_name : string) (chunks : list string)
    (document_type : string) (clause_type risk_level policy_id : option string)
    (w : World) :
  let run := add_document_chunks encode document_id document_name chunks
               document_type clause_type risk_level policy_id w in
  document_type ≠ "contract" →
  raises_next w = false →
  run.1 = Return true →
  chunks ≠ [] →
  raises_next run.2 = false →
  raises_next (advance run.2) = false →
  ∃ listing s,
    (list_documents None run.2).1 = Return listing ∧ s ∈ listing ∧
    s_document_id s = VStr document_id ∧
    s_document_type s = "policy" ∧
    (document_type = "policy" →
       s_clause_type s = Some (VStr (py_or clause_type "general")) ∧
       s_risk_level s = Some (VStr (py_or risk_level "medium")) ∧
       s_policy_id s = Some (VStr (py_or policy_id document_id))) ∧
    (document_type ≠ "policy" →
       s_clause_type s = Some (VStr "general") ∧
       s_risk_level s = Some (VStr "medium") ∧
       s_policy_id s = Some (VStr document_id)).
Proof.
  intros run Ht Hw Hok Hne H1 H2. subst run.
  rewrite list_documents_all_spec by done. simpl.
  destruct (added_summary encode document_id document_name chunks document_type
              clause_type risk_level policy_id w "policy" Hw Hok Hne)
    as (s & r & Hs & Hr & Hid & Htype & _ & _ & Hpol).
  destruct (Hpol eq_refl) as (Hc & Hrl & Hp).
  apply elem_of_batch in Hr as (i & chunk & _ & ->). simpl in Hc, Hrl, Hp.
  unfold target in Hs. rewrite (proj2 (String.eqb_neq _ _) Ht) in Hs.
  eexists _, s. split; [done|]. split; [apply elem_of_app; by right|].
  split; [done|]. split; [done|]. unfold dict_get_default in *. split.
  - intros ->.
    destruct (chunk_metadata_policy document_id document_name
                clause_type risk_level policy_id i chunk) as (P1 & P2 & P3).
    rewrite P1 in Hc. rewrite P2 in Hrl. rewrite P3 in Hp. done.
  - intros Hp'.
    destruct (chunk_metadata_plain document_id document_name document_type
                clause_type risk_level policy_id i chunk Hp') as (P1 & P2 & P3).
    rewrite P1 in Hc. rewrite P2 in Hrl. rewrite P3 in Hp. done.
Qed.

(** X15.  A document that was added is found: after a call of
    [add_document_chunks] under a non-empty document id that returned
    [True] and whose delete step did not raise, a search of the same
    collection type filtered to the document, answered by the embedder and
    the store, with a [top_k] of at least the number of chunks, returns the
    chunks of the list, each once, under their ids. *)
Theorem added_chunks_are_found (encode : string → option embedding)
    (metric : embedding → embedding → float)
    (document_id document_name : string) (chunks : list string)
    (document_type : string) (clause_type risk_level policy_id : option string)
    (query : string) (top_k : Z) (w : World) :
  let run := add_document_chunks encode document_id document_name chunks
               document_type clause_type risk_level policy_id w in
  raises_next w = false →
  run.1 = Return true →
  document_id ≠ "" →
  is_Some (encode query) →
  raises_next run.2 = false →
  (length chunks ≤ Z.to_nat top_k)%nat →
  ∃ results,
    (search_chunks encode metric query (Some document_id) top_k document_type
       run.2).1 = Return results ∧
    (λ r, (chunk_id r, text r)) <$> results
    ≡ₚ imap (λ i chunk, (make_chunk_id document_id i, chunk)) chunks.
Proof.
  intros run Hw Hok Hd [q Hq] Hw' Hk. subst run.
  pose proof (added_chunks_of encode document_id document_name chunks document_type
                clause_type risk_level policy_id w Hw Hok) as Hperm.
  rewrite search_chunks_spec, Hq, Hw'. simpl.
  eexists. split; [done|].
  unfold Chroma.nearest. simpl.
  rewrite (proj2 (String.eqb_neq _ _) Hd), filter_matches.
  rewrite take_ge.
  - rewrite merge_sort_Permutation, Hperm.
    rewrite <- !list_fmap_compose. unfold batch_records.
    by rewrite fmap_imap.
  - rewrite merge_sort_Permutation, length_fmap, Hperm.
    unfold batch_records. by rewrite length_imap.
Qed.

(** ** Deleting or clearing, then reading *)

Lemma list_documents_contract_spec w :
  list_documents (Some "contract") w =
    (if raises_next w then Return []
     else Return (_group_documents_by_id (scan (contract_collection w)) "contract"),
     advance w).
Proof.
  unfold list_documents. unfold_monad. rewrite list_part_spec. simpl.
  by destruct (raises_next w).
Qed.

(** X16.  After [DELETE /delete_document/{document_id}] went through, the
    document is gone from the contract collection for its readers: a search
    of the contract collection filtered to a non-empty [document_id]
    returns the empty list, and the listing of the contract collection has
    no entry under that id. *)
Theorem deleted_document_is_gone (encode : string → option embedding)
    (metric : embedding → embedding → float) (document_id : string)
    (w : World) :
  let run := Service.delete_document document_id w in
  raises_next w = false →
  (document_id ≠ "" →
   ∀ query top_k,
     (search_chunks encode metric query (Some document_id) top_k "contract"
        run.2).1 = Return []) ∧
  (∀ l s, (list_documents (Some "contract") run.2).1 = Return l →
          s ∈ l → s_document_id s ≠ VStr document_id).
Proof.
  intros run Hw.
  assert (contract_collection run.2 = without document_id (contract_collection w))
    as Hgone.
  { subst run. unfold Service.delete_document. unfold_monad.
    by rewrite delete_chunks_spec, Hw. }
  split.
  - intros Hd query top_k. rewrite search_chunks_spec.
    destruct (encode query) as [q|]; [|done]. simpl.
    destruct (raises_next run.2); [done|]. simpl.
    rewrite (proj2 (String.eqb_neq _ _) Hd).
    rewrite (nil_length_inv (Chroma.nearest _ _ _ _ _)); [done|].
    rewrite nearest_length, filter_matches, Hgone, chunks_of_without.
    simpl. lia.
  - intros l s Hl Hs Hid.
    rewrite list_documents_contract_spec in Hl.
    destruct (raises_next run.2); simpl in Hl.
    + injection Hl as <-. by apply elem_of_nil in Hs.
    + injection Hl as <-.
      destruct (grouped_scan "contract" (contract_collection run.2))
        as (_ & Hids & _).
      assert (VStr document_id ∈ s_document_id <$>
                _group_documents_by_id (scan (contract_collection run.2)) "contract")
        as (r & Hr & Hdoc)%Hids.
      { rewrite <- Hid. by apply list_elem_of_fmap_2. }
      rewrite Hgone in Hr. apply elem_of_without in Hr as [Hnot _].
      by apply Hnot, doc_id_of_in_document.
Qed.

Lemma list_documents_of_empty t w :
  contract_collection w = [] → policy_collection w = [] →
  (list_documents t w).1 = Return [].
Proof.
  intros Hc Hp. unfold list_documents. unfold_monad.
  rewrite list_part_spec. simpl. rewrite Hc.
  destruct (match t with None => true | Some t0 => String.eqb t0 "contract" end).
  - destruct (raises_next w); simpl; [done|].
    rewrite list_part_spec. simpl. rewrite Hp.
    destruct (match t with None => true | Some t0 => String.eqb t0 "policy" end);
      [destruct (raises_next (advance w))|]; done.
  - rewrite list_part_spec. simpl. rewrite Hp.
    destruct (match t with None => true | Some t0 => String.eqb t0 "policy" end);
      [destruct (raises_next w)|]; done.
Qed.

(** X17.  [clear_all] returns [False] and changes no collection when the
    reset raises; otherwise it returns [True] and empties both collections,
    after which [list_documents] returns the empty list for every type
    filter, as does [GET /list_documents] after [DELETE /clear_all]. *)
Theorem clear_all_then_list (w : World) :
  (raises_next w = true →
     (clear_all w).1 = Return false ∧
     contract_collection (clear_all w).2 = contract_collection w ∧
     policy_collection (clear_all w).2 = policy_collection w ∧
     (Api.clear_all w).1 = Raise (HTTPException 500)) ∧
  (raises_next w = false →
     (clear_all w).1 = Return true ∧
     contract_collection (clear_all w).2 = [] ∧
     policy_collection (clear_all w).2 = [] ∧
     (∀ t, (list_documents t (clear_all w).2).1 = Return []) ∧
     (Api.list_documents (Api.clear_all w).2).1 = Return []).
Proof.
  split; intros Hw.
  - unfold Api.clear_all. unfold_monad. by rewrite clear_all_spec, Hw.
  - unfold Api.clear_all, Api.list_documents. unfold_monad.
    rewrite clear_all_spec, Hw. simpl. split_and!; try done.
    + intros t. by apply list_documents_of_empty.
    + pose proof (list_documents_of_empty None
                    (mkWorld [] [] (tail (faults w))) eq_refl eq_refl) as H.
      destruct (list_documents None (mkWorld [] [] (tail (faults w)))) as [r w'].
      simpl in H. by subst r.
Qed.

(** ** The viewer *)

(** X18.  On a database that holds the two collections
    [_initialize_chromadb] creates, [view_embeddings] returns [False]
    whatever its reading and printing part would do: it asks the client for
    the collection ["document_chunks"], which is neither of the two. *)
Theorem view_embeddings_finds_no_collection (report : Chroma.handle → M unit)
    (w : World) :
  (view_embeddings report w).1 = Return false ∧
  contract_collection (view_embeddings report w).2 = contract_collection w ∧
  policy_collection (view_embeddings report w).2 = policy_collection w.
Proof.
  unfold view_embeddings, get_collection. unfold_monad. rewrite enter_spec.
  by destruct (raises_next w).
Qed.

(** ** Searching at the edges *)

(** X19.  [search_chunks] returns the empty list for a [top_k] of zero or
    less; and when the embedder refuses the query it returns the empty list
    without a call to the store, so that the state, pending outcomes
    included, is as before. *)
Theorem search_chunks_edges (encode : string → option embedding)
    (metric : embedding → embedding → float) (query : string)
    (document_id : option string) (top_k : Z) (collection_type : string)
    (w : World) :
  (top_k ≤ 0 →
     (search_chunks encode metric query document_id top_k collection_type w).1
     = Return []) ∧
  (encode query = None →
     search_chunks encode metric query document_id top_k collection_type w
     = (Return [], w)).
Proof.
  rewrite search_chunks_spec. split.
  - intros Hk. destruct (encode query) as [q|]; [|done].
    destruct (raises_next w); [done|]. simpl. unfold Chroma.nearest.
    replace (Z.to_nat top_k) with 0%nat by lia. done.
  - by intros ->.
Qed.

(** ** Further theorems at concrete inputs *)

Lemma sample_stores_sound : store_sound Sample.stored ∧ store_sound Sample.shared.
Proof.
  assert (store_sound Sample.empty) as H0 by (split; apply sound_nil).
  assert (store_sound Sample.stored) as H1 by (by apply add_sound).
  split; [done|]. by do 2 apply add_sound.
Qed.

(** The second chunk of the new list is refused by the embedder. *)
Lemma failed_add_loses_old_chunks_witness :
  let run := add_document_chunks Sample.encode "D" "v2.pdf" ["fine"; "boom"]
               "contract" None None None Sample.stored in
  length (chunks_of "D" (contract_collection Sample.stored)) = 2%nat ∧
  run.1 = Return false ∧
  Chroma.coll (target "contract") run.2
  = without "D" (Chroma.coll (target "contract") Sample.stored).
Proof.
  split; [reflexivity|].
  apply (failed_add_loses_old_chunks Sample.encode "D" "v2.pdf" ["fine"; "boom"]
           "contract" None None None Sample.stored).
  - reflexivity.
  - discriminate.
  - left. apply Exists_cons_tl, Exists_cons_hd. reflexivity.
Defined.

(** Seven calls from the empty store, the second and fifth store calls
    raising. *)
Lemma calls_keep_store_sound_witness :
  store_sound
    (after_all Sample.encode Sample.metric
       [CallAdd "D" "doc.pdf" ["alpha"; "café"] "contract" None None None;
        CallAdd "P" "rules.pdf" ["one"; "boom"] "policy" None None None;
        CallSearch "abc" (Some "D") 3 "contract";
        CallAdd "D" "doc.pdf" ["gamma"] "contract" None None None;
        CallDelete "P" "policy";
        CallList None;
        CallClear]
       (Sample.scripted Sample.empty [false; true; false; false; true])).
Proof.
  apply calls_keep_store_sound. split; apply sound_nil.
Defined.

(** Policy ["P"] is added again to the store that holds ["D"] and ["P"]. *)
Lemma add_appends_batch_witness :
  let run := add_document_chunks Sample.encode "P" "rules2.pdf" ["four"]
               "policy" None None None Sample.shared in
  rec_id <$> policy_collection Sample.shared
  = ["D_chunk_0"; "P_chunk_0"; "P_chunk_1"] ∧
  Chroma.coll (target "policy") run.2
  = without "P" (Chroma.coll (target "policy") Sample.shared)
    ++ batch_records Sample.encode "P" "rules2.pdf" "policy" None None None ["four"].
Proof.
  split; [reflexivity|].
  apply (add_appends_batch Sample.encode "P" "rules2.pdf" ["four"]
           "policy" None None None Sample.shared).
  - reflexivity.
  - reflexivity.
  - exact (Forall_impl _ _ _ (proj2 (proj2 (proj2 sample_stores_sound)))
             consistent_keyed).
Defined.

(** Contract ["D"] is added twice with a new list. *)
Lemma add_twice_is_add_once_witness :
  let add := add_document_chunks Sample.encode "D" "v2.pdf" ["gamma"; "delta"]
               "contract" None None None in
  Chroma.coll (target "contract") (add (add Sample.stored).2).2
  = Chroma.coll (target "contract") (add Sample.stored).2.
Proof.
  apply (add_twice_is_add_once Sample.encode "D" "v2.pdf" ["gamma"; "delta"]
           "contract" None None None Sample.stored).
  - reflexivity.
  - reflexivity.
  - reflexivity.
  - reflexivity.
  - exact (Forall_impl _ _ _ (proj2 (proj1 (proj1 sample_stores_sound)))
             consistent_keyed).
Defined.

(** A document of type ["memo"] in two chunks, then the listing. *)
Lemma added_document_is_listed_witness :
  let run := add_document_chunks Sample.encode "M" "memo.txt" ["note"; "more"]
               "memo" None None None Sample.stored in
  ∃ listing s,
    (list_documents None run.2).1 = Return listing ∧ s ∈ listing ∧
    s_document_id s = VStr "M" ∧
    s_document_name s = VStr "memo.txt" ∧
    s_chunk_count s = 2 ∧
    s_document_type s = "policy".
Proof.
  apply (added_document_is_listed Sample.encode "M" "memo.txt" ["note"; "more"]
           "memo" None None None Sample.stored).
  - reflexivity.
  - reflexivity.
  - discriminate.
  - reflexivity.
  - reflexivity.
Defined.

(** The same document: its entry carries the defaults of a policy. *)
Lemma listed_policy_fields_witness :
  let run := add_document_chunks Sample.encode "M" "memo.txt" ["note"; "more"]
               "memo" None (Some "high") None Sample.stored in
  ∃ listing s,
    (list_documents None run.2).1 = Return listing ∧ s ∈ listing ∧
    s_document_id s = VStr "M" ∧
    s_document_type s = "policy" ∧
    s_clause_type s = Some (VStr "general") ∧
    s_risk_level s = Some (VStr "medium") ∧
    s_policy_id s = Some (VStr "M").
Proof.
  destruct (listed_policy_fields Sample.encode "M" "memo.txt" ["note"; "more"]
              "memo" None (Some "high") None Sample.stored
              ltac:(discriminate) eq_refl eq_refl ltac:(discriminate)
              eq_refl eq_refl)
    as (listing & s & Hl & Hs & Hid & Htype & _ & Hplain).
  destruct (Hplain ltac:(discriminate)) as (H1 & H2 & H3).
  exists listing, s. repeat split; assumption.
Defined.

(** Contract ["D"] is added in two chunks and searched with a bound of 5. *)
Lemma added_chunks_are_found_witness :
  let run := add_document_chunks Sample.encode "D" "v2.pdf" ["gamma"; "delta"]
               "contract" None None None Sample.stored in
  ∃ results,
    (search_chunks Sample.encode Sample.metric "abc" (Some "D") 5 "contract"
       run.2).1 = Return results ∧
    (λ r, (chunk_id r, text r)) <$> results
    ≡ₚ [("D_chunk_0", "gamma"); ("D_chunk_1", "delta")].
Proof.
  apply (added_chunks_are_found Sample.encode Sample.metric "D" "v2.pdf"
           ["gamma"; "delta"] "contract" None None None "abc" 5 Sample.stored).
  - reflexivity.
  - reflexivity.
  - discriminate.
  - eexists. reflexivity.
  - reflexivity.
  - simpl. lia.
Defined.

(** Document ["D"] is deleted from the store that holds it in both
    collections. *)
Lemma deleted_document_is_gone_witness :
  let run := Service.delete_document "D" Sample.shared in
  length (chunks_of "D" (contract_collection Sample.shared)) = 2%nat ∧
  (search_chunks Sample.encode Sample.metric "abc" (Some "D") 5 "contract"
     run.2).1 = Return [] ∧
  length (chunks_of "D" (policy_collection run.2)) = 1%nat.
Proof.
  split; [reflexivity|]. split; [|reflexivity].
  apply (deleted_document_is_gone Sample.encode Sample.metric "D" Sample.shared
           eq_refl).
  discriminate.
Defined.
